(** * beacon-kit: the consensus/execution middleware core

    A shallow embedding of the Go sources

    - [mod/primitives/pkg/encoding/hex/format.go]   (module [Hex])
    - [mod/runtime/abci/types/block.go]             (module [ABCITypes])
    - [mod/runtime/pkg/middleware/abci.go]          (module [Middleware])
    - package [validator] (block building)          (module [Validator])
    - package [blockchain] (forkchoice updates)     (module [Blockchain])

    Conventions used throughout.

    - A Go [error] value is [option E]: [None] is [nil].
    - A Go slice that the code compares with [nil] is an [option (list _)]:
      [None] is the nil slice.
    - A Go string is a sequence of bytes: Rocq's [string] of 8-bit [ascii].
    - [uint64] values are integers in [Z], every arithmetic operation reduced
      modulo [2^64] where Go wraps.
    - A run-time panic (nil dereference, index out of range) is the outcome
      [Panicked]; it is never confused with a returned error. *)

From Stdlib Require Import ZArith NArith List String Ascii Bool Lia.
Import ListNotations.

(* ------------------------------------------------------------------------- *)
(** * Outcomes of a Go call                                                   *)
(* ------------------------------------------------------------------------- *)

(** A call either returns its results or panics. *)
Inductive Outcome (A : Type) : Type :=
| Returned (a : A)
| Panicked.

Arguments Returned {A} a.
Arguments Panicked {A}.

(** [returns o] holds when the call did not panic. *)
Definition returns {A : Type} (o : Outcome A) : bool :=
  match o with
  | Returned _ => true
  | Panicked => false
  end.

(* ------------------------------------------------------------------------- *)
(** * Package hex: [format.go]                                                *)
(* ------------------------------------------------------------------------- *)

Module Hex.

Local Open Scope string_scope.

(** [s[i] == c], for an index the caller has checked to be in range. *)
Definition byte_is (s : string) (i : nat) (c : ascii) : bool :=
  match get i s with
  | Some b => Ascii.eqb b c
  | None => false
  end.

(** has0xPrefix returns true if s has a 0x prefix. *)
Definition has0xPrefix (s : string) : bool :=
  (2 <=? length s)%nat && byte_is s 0 "0" && (byte_is s 1 "x" || byte_is s 1 "X").

(** ensure0xPrefix ensures that s has a 0x prefix. If it doesn't, it adds it.
    (The [[]byte] instance appends the same two bytes; on byte sequences the
    two instances coincide.) *)
Definition ensure0xPrefix (s : string) : string :=
  if has0xPrefix s then s else "0x" ++ s.

(** ensureStringInvariants ensures that String invariants are met by appending
    0x prefix if missing, and converting empty string to "0x0". *)
Definition ensureStringInvariants (s : string) : string :=
  let s := if (length s =? 0)%nat then "0" else s in
  ensure0xPrefix s.

(** ** Properties *)

Lemma has0xPrefix_cons2 (a b : ascii) (s : string) :
  has0xPrefix (String a (String b s))
  = Ascii.eqb a "0" && (Ascii.eqb b "x" || Ascii.eqb b "X").
Proof. reflexivity. Qed.

Lemma has0xPrefix_added (s : string) : has0xPrefix ("0x" ++ s) = true.
Proof. reflexivity. Qed.

Lemma has0xPrefix_ensure0xPrefix (s : string) :
  has0xPrefix (ensure0xPrefix s) = true.
Proof.
  unfold ensure0xPrefix.
  destruct (has0xPrefix s) eqn:E.
  - exact E.
  - apply has0xPrefix_added.
Qed.

Lemma ensure0xPrefix_fixed (s : string) :
  has0xPrefix s = true -> ensure0xPrefix s = s.
Proof. intros H. unfold ensure0xPrefix. now rewrite H. Qed.

Lemma ensure0xPrefix_idempotent (s : string) :
  ensure0xPrefix (ensure0xPrefix s) = ensure0xPrefix s.
Proof. apply ensure0xPrefix_fixed, has0xPrefix_ensure0xPrefix. Qed.

Lemma prefix_two (c d a b : ascii) (s : string) :
  prefix (String c (String d "")) (String a (String b s))
  = Ascii.eqb a c && Ascii.eqb b d.
Proof.
  cbn [prefix].
  destruct (ascii_dec c a) as [->|Hc].
  - rewrite Ascii.eqb_refl.
    destruct (ascii_dec d b) as [->|Hd].
    + now rewrite Ascii.eqb_refl; destruct s.
    + symmetry. apply Ascii.eqb_neq. congruence.
  - assert (Ascii.eqb a c = false) as -> by (apply Ascii.eqb_neq; congruence).
    reflexivity.
Qed.

Lemma prefix_two_short (c d : ascii) (s : string) :
  (length s < 2)%nat -> prefix (String c (String d "")) s = false.
Proof.
  destruct s as [|a [|b s]]; cbn [length]; intros H; try lia.
  - reflexivity.
  - cbn [prefix]. destruct (ascii_dec c a); reflexivity.
Qed.

(** What the accepted prefix is, byte for byte. *)
Lemma has0xPrefix_spec (s : string) :
  has0xPrefix s = prefix "0x" s || prefix "0X" s.
Proof.
  destruct s as [|a [|b s]].
  - reflexivity.
  - rewrite !prefix_two_short by (cbn; lia). reflexivity.
  - rewrite has0xPrefix_cons2, !prefix_two.
    now destruct (Ascii.eqb a "0").
Qed.

(** The prefix test accepts the marker in either case, so an input that
    carries the upper-case marker "0X" is returned as it is. *)
Example ensureStringInvariants_keeps_upper_marker :
  has0xPrefix "0Xab" = true
  /\ ensureStringInvariants "0Xab" = "0Xab"
  /\ prefix "0x" (ensureStringInvariants "0Xab") = false.
Proof. repeat split. Qed.

(** C10: for every input string [s], [ensureStringInvariants s] has a 0x
    prefix, as [has0xPrefix] tests it: it starts with "0x" or with "0X".  The
    result is pinned: an input with the prefix is returned unchanged (so one
    that starts with "0X" keeps its marker), every other non-empty input gets
    the two bytes "0x" in front, and the empty string maps to exactly "0x0".
    [ensure0xPrefix] is idempotent and its result always satisfies
    [has0xPrefix]; it returns an input with the prefix unchanged and puts
    "0x" in front of any other. *)
Theorem ensureStringInvariants_prefix_invariants :
  (forall s, has0xPrefix (ensureStringInvariants s) = true)
  /\ (forall s, prefix "0x" (ensureStringInvariants s) = true
                \/ prefix "0X" (ensureStringInvariants s) = true)
  /\ (forall s, prefix "0X" s = false ->
                prefix "0x" (ensureStringInvariants s) = true)
  /\ ensureStringInvariants "" = "0x0"
  /\ (forall s, ensure0xPrefix (ensure0xPrefix s) = ensure0xPrefix s)
  /\ (forall s, has0xPrefix (ensure0xPrefix s) = true)
  /\ (forall s, has0xPrefix s = true -> ensureStringInvariants s = s)
  /\ (forall s, prefix "0X" s = true -> ensureStringInvariants s = s)
  /\ (forall s, has0xPrefix s = false -> s <> "" ->
                ensureStringInvariants s = "0x" ++ s)
  /\ (forall s, ensure0xPrefix s = if has0xPrefix s then s else "0x" ++ s).
Proof.
  assert (Hinv : forall s, has0xPrefix (ensureStringInvariants s) = true)
    by (intros s; apply has0xPrefix_ensure0xPrefix).
  assert (Hfix : forall s, has0xPrefix s = true -> ensureStringInvariants s = s).
  { intros s H. unfold ensureStringInvariants.
    destruct s as [|a s]; [discriminate H|].
    cbn [length Nat.eqb]. now apply ensure0xPrefix_fixed. }
  split; [exact Hinv|].
  split.
  { intros s. specialize (Hinv s). rewrite has0xPrefix_spec in Hinv.
    apply orb_true_iff in Hinv. exact Hinv. }
  split.
  { intros s HX. unfold ensureStringInvariants.
    destruct s as [|a s]; [reflexivity|].
    cbn [length Nat.eqb]. unfold ensure0xPrefix.
    destruct (has0xPrefix (String a s)) eqn:E; [|reflexivity].
    rewrite has0xPrefix_spec, HX, orb_false_r in E. exact E. }
  split; [reflexivity|].
  split; [apply ensure0xPrefix_idempotent|].
  split; [apply has0xPrefix_ensure0xPrefix|].
  split; [exact Hfix|].
  split.
  { intros s HX. apply Hfix. rewrite has0xPrefix_spec, HX. apply orb_true_r. }
  split; [|reflexivity].
  intros s H Hne. unfold ensureStringInvariants.
  destruct s as [|a s]; [now destruct Hne|].
  cbn [length Nat.eqb]. unfold ensure0xPrefix. now rewrite H.
Qed.

(** C10 at an input without marker, at one with the upper-case marker, and
    at one with a lone "0". *)
Lemma ensureStringInvariants_prefix_invariants_witness :
  prefix "0x" (ensureStringInvariants "beef") = true
  /\ has0xPrefix (ensureStringInvariants "0XBEEF") = true
  /\ ensureStringInvariants "0XBEEF" = "0XBEEF"
  /\ ensureStringInvariants "0" = "0x0".
Proof.
  destruct ensureStringInvariants_prefix_invariants
    as (Hacc & _ & Hx & _ & _ & _ & _ & Hkeep & Hadd & _).
  split; [|split; [|split]].
  - apply Hx. reflexivity.
  - apply Hacc.
  - apply Hkeep. reflexivity.
  - apply (Hadd "0"); [reflexivity | discriminate].
Defined.

(** ** Quoted strings and validated hex text *)

(** The byte of a double quote. *)
Definition quote : ascii := ascii_of_nat 34.

(** isQuotedString returns true if input has quotes. *)
Definition isQuotedString (input : string) : bool :=
  (2 <=? length input)%nat
  && byte_is input 0 quote
  && byte_is input (length input - 1) quote.

(** The errors of the package, with Go's wrapping: [Wrapped] is an error
    that unwraps to [inner]; [Other] is any error without a name here. *)
Inductive hex_error : Type :=
| ErrEmptyString
| ErrOddLength
| ErrEmptyNumber
| ErrLeadingZero
| Other (msg : string)
| Wrapped (msg : string) (inner : hex_error).

Fixpoint hex_error_eqb (a b : hex_error) : bool :=
  match a, b with
  | ErrEmptyString, ErrEmptyString
  | ErrOddLength, ErrOddLength
  | ErrEmptyNumber, ErrEmptyNumber
  | ErrLeadingZero, ErrLeadingZero => true
  | Other m, Other m' => String.eqb m m'
  | Wrapped m i, Wrapped m' i' => String.eqb m m' && hex_error_eqb i i'
  | _, _ => false
  end.

(** Go's [errors.Is]: [err] or an error it unwraps to equals [target]. *)
Fixpoint errors_Is (err target : hex_error) : bool :=
  hex_error_eqb err target
  || match err with
     | Wrapped _ inner => errors_Is inner target
     | _ => false
     end.

(** The slice expression [input[n:]]: it panics when [n] exceeds the length. *)
Fixpoint slice_from (input : string) (n : nat) {struct n} : Outcome string :=
  match n, input with
  | O, _ => Returned input
  | S n', String _ rest => slice_from rest n'
  | S _, EmptyString => Panicked
  end.

(** X14: the strings [ensure0xPrefix] leaves unchanged are exactly those
    that already carry the marker; any other string comes back two bytes
    longer, as "0x" followed by the string, so that cutting the first two
    bytes of the result gives the string back. *)
Theorem ensure0xPrefix_fixed_points (s : string) :
  (ensure0xPrefix s = s <-> has0xPrefix s = true)
  /\ (has0xPrefix s = false ->
      ensure0xPrefix s = "0x" ++ s
      /\ length (ensure0xPrefix s) = (2 + length s)%nat
      /\ slice_from (ensure0xPrefix s) 2 = Returned s).
Proof.
  unfold ensure0xPrefix. destruct (has0xPrefix s) eqn:E; split.
  - split; reflexivity.
  - discriminate.
  - split; [|discriminate].
    intros H. apply (f_equal length) in H. cbn in H. lia.
  - intros _. repeat split.
Qed.

Section Validation.

(** [isValidHex] is declared in another file of the package. *)
Variable isValidHex : string -> option hex_error.

(** formatAndValidateText validates the input text for a hex string.  The
    result is a byte slice and may be nil. *)
Definition formatAndValidateText (input : string)
  : Outcome (option string * option hex_error) :=
  match isValidHex input with
  | None =>
      match slice_from input 2 with
      | Panicked => Panicked
      | Returned input =>
          if negb (length input mod 2 =? 0)%nat
          then Returned (None, Some ErrOddLength)
          else Returned (Some input, None)
      end
  | Some err =>
      if errors_Is err ErrEmptyString
      then Returned (None, None) (* empty strings are allowed *)
      else Returned (None, Some err)
  end.

(** formatAndValidateNumber checks the input text for a hex number (the
    [string] instance; the zero value returned with an error is [""]). *)
Definition formatAndValidateNumber (input : string)
  : Outcome (string * option hex_error) :=
  match isValidHex input with
  | Some err => Returned ("", Some err)
  | None =>
      match slice_from input 2 with
      | Panicked => Panicked
      | Returned input =>
          if (length input =? 0)%nat then Returned ("", Some ErrEmptyNumber)
          else if (1 <? length input)%nat && byte_is input 0 "0"
               then Returned ("", Some ErrLeadingZero)
               else Returned (input, None)
      end
  end.

(** ** Properties *)

Lemma length_snoc (s : string) (c : ascii) :
  length (s ++ String c "") = S (length s).
Proof. induction s as [|a s IH]; cbn; [reflexivity | now rewrite IH]. Qed.

Lemma get_last (s : string) (c : ascii) :
  get (length (s ++ String c "") - 1) (s ++ String c "") = Some c.
Proof.
  rewrite length_snoc, Nat.sub_succ, Nat.sub_0_r.
  induction s as [|a s IH]; [reflexivity | exact IH].
Qed.

Lemma split_last (a : ascii) (s : string) :
  exists t c, String a s = t ++ String c "".
Proof.
  revert a. induction s as [|b s IH]; intros a.
  - now exists "", a.
  - destruct (IH b) as (t & c & E). exists (String a t), c.
    cbn [append]. now rewrite E.
Qed.

(** X1: a string is quoted exactly when it is a double quote, any bytes, and
    a double quote: at least two bytes, so the one-byte string that is a
    single quote is not quoted. *)
Theorem isQuotedString_iff (input : string) :
  isQuotedString input = true
  <-> exists inner, input = String quote (inner ++ String quote "").
Proof.
  split.
  - unfold isQuotedString. intros H.
    apply andb_true_iff in H as [H Hlast].
    apply andb_true_iff in H as [Hlen Hfirst].
    destruct input as [|a [|b s]]; try discriminate.
    unfold byte_is in Hfirst. cbn [get] in Hfirst.
    apply Ascii.eqb_eq in Hfirst. subst a.
    destruct (split_last b s) as (t & c & E).
    exists t. f_equal. rewrite E. f_equal. f_equal.
    unfold byte_is in Hlast.
    change (String quote (String b s)) with (String quote "" ++ String b s) in Hlast.
    rewrite E in Hlast.
    change (String quote "" ++ t ++ String c "")
      with (String quote t ++ String c "") in Hlast.
    rewrite get_last in Hlast. now apply Ascii.eqb_eq in Hlast.
  - intros [inner ->]. unfold isQuotedString.
    apply andb_true_iff. split; [apply andb_true_iff; split|].
    + destruct inner; reflexivity.
    + unfold byte_is. cbn [get]. apply Ascii.eqb_refl.
    + unfold byte_is.
      change (String quote (inner ++ String quote ""))
        with (String quote inner ++ String quote "").
      rewrite get_last. apply Ascii.eqb_refl.
Qed.

Lemma slice_from_two (input : string) :
  has0xPrefix input = true ->
  exists a b rest,
    input = String a (String b rest) /\ slice_from input 2 = Returned rest.
Proof.
  destruct input as [|a [|b rest]]; intros H;
    try (cbv in H; discriminate).
  exists a, b, rest. split; reflexivity.
Qed.

Lemma has0xPrefix_marker (a b : ascii) (rest : string) :
  has0xPrefix (String a (String b rest)) = true ->
  String a (String b rest) = "0x" ++ rest
  \/ String a (String b rest) = "0X" ++ rest.
Proof.
  rewrite has0xPrefix_cons2. intros H.
  apply andb_true_iff in H as [Ha Hb]. apply Ascii.eqb_eq in Ha. subst a.
  apply orb_true_iff in Hb as [Hb|Hb]; apply Ascii.eqb_eq in Hb; subst b;
    [now left | now right].
Qed.

(** [isValidHex] accepts marked input only. *)
Definition accepts_marked_only : Prop :=
  forall s, isValidHex s = None -> has0xPrefix s = true.

(** X2: provided [isValidHex] accepts only input that carries the marker,
    [formatAndValidateText] never slices out of range; it returns a text only
    without an error, and then the input is the marker followed by that text,
    whose length is even; an input refused as empty gives neither a text nor
    an error. *)
Theorem formatAndValidateText_result (input : string) :
  accepts_marked_only ->
  exists r,
    formatAndValidateText input = Returned r
    /\ (forall text, fst r = Some text ->
          snd r = None
          /\ (input = "0x" ++ text \/ input = "0X" ++ text)
          /\ Nat.even (length text) = true)
    /\ (forall err, isValidHex input = Some err ->
          errors_Is err ErrEmptyString = true -> r = (None, None))
    /\ (forall err, isValidHex input = Some err ->
          errors_Is err ErrEmptyString = false -> r = (None, Some err)).
Proof.
  intros Hmarked. unfold formatAndValidateText.
  destruct (isValidHex input) as [err|] eqn:Hv.
  - destruct (errors_Is err ErrEmptyString) eqn:Hi; eexists;
      (split; [reflexivity|]); cbn; repeat split; try discriminate;
      intros e [= <-]; congruence.
  - destruct (slice_from_two input (Hmarked _ Hv)) as (a & b & rest & E & ->).
    pose proof (Hmarked _ Hv) as Hp. rewrite E in Hp.
    apply has0xPrefix_marker in Hp. rewrite <- E in Hp.
    destruct (length rest mod 2 =? 0)%nat eqn:Hm; cbn; eexists;
      (split; [reflexivity|]); cbn; repeat split; try discriminate.
    + now injection H as <-.
    + injection H as <-. apply Nat.eqb_eq in Hm.
      apply Nat.even_spec. exists (length rest / 2)%nat.
      pose proof (Nat.div_mod_eq (length rest) 2). lia.
Qed.

(** X3: provided [isValidHex] accepts only input that carries the marker,
    [formatAndValidateNumber] never slices out of range, and a number it
    returns without error is the input behind its marker, is not empty, and
    has no leading zero: its first byte is "0" only when it is that one
    byte. *)
Theorem formatAndValidateNumber_result (input : string) :
  accepts_marked_only ->
  exists r,
    formatAndValidateNumber input = Returned r
    /\ (snd r = None ->
          (input = "0x" ++ fst r \/ input = "0X" ++ fst r)
          /\ (1 <= length (fst r))%nat
          /\ (byte_is (fst r) 0 "0" = true -> fst r = "0"))
    /\ (snd r <> None -> fst r = "").
Proof.
  intros Hmarked. unfold formatAndValidateNumber.
  destruct (isValidHex input) as [err|] eqn:Hv.
  - eexists. split; [reflexivity|]. cbn. split; [discriminate | reflexivity].
  - destruct (slice_from_two input (Hmarked _ Hv)) as (a & b & rest & E & ->).
    pose proof (Hmarked _ Hv) as Hp. rewrite E in Hp.
    apply has0xPrefix_marker in Hp. rewrite <- E in Hp.
    destruct rest as [|c rest'].
    + eexists. split; [reflexivity|]. cbn. split; [discriminate | reflexivity].
    + cbn [length Nat.eqb].
      destruct ((1 <? S (length rest'))%nat && byte_is (String c rest') 0 "0")
        eqn:Hz; eexists; (split; [reflexivity|]); cbn [fst snd].
      * split; [discriminate | reflexivity].
      * split; [|intros H; now destruct H].
        intros _. split; [exact Hp|]. split; [cbn; lia|].
        intros H0. rewrite H0, andb_true_r in Hz.
        apply Nat.ltb_ge in Hz. cbn in Hz.
        destruct rest'; [|cbn in Hz; lia].
        unfold byte_is in H0. cbn in H0. apply Ascii.eqb_eq in H0. now subst c.
Qed.

End Validation.

(** A check that accepts exactly the non-empty inputs carrying the marker. *)
Definition marked_check (s : string) : option hex_error :=
  if (length s =? 0)%nat then Some ErrEmptyString
  else if has0xPrefix s then None
  else Some (Other "missing prefix").

Lemma marked_check_accepts_marked_only : accepts_marked_only marked_check.
Proof.
  intros s. unfold marked_check.
  destruct (length s =? 0)%nat; [discriminate|].
  now destruct (has0xPrefix s).
Qed.

(** X14 at a string without marker. *)
Lemma ensure0xPrefix_fixed_points_witness :
  ensure0xPrefix "beef" = "0x" ++ "beef"
  /\ slice_from (ensure0xPrefix "beef") 2 = Returned "beef".
Proof.
  destruct (ensure0xPrefix_fixed_points "beef") as (_ & H).
  destruct (H eq_refl) as (Heq & _ & Hcut).
  split; [exact Heq | exact Hcut].
Defined.

(** X2 at the text "0xbeef". *)
Lemma formatAndValidateText_result_witness :
  exists r,
    formatAndValidateText marked_check "0xbeef" = Returned r
    /\ (forall text, fst r = Some text ->
          snd r = None
          /\ ("0xbeef" = "0x" ++ text \/ "0xbeef" = "0X" ++ text)
          /\ Nat.even (length text) = true)
    /\ (forall err, marked_check "0xbeef" = Some err ->
          errors_Is err ErrEmptyString = true -> r = (None, None))
    /\ (forall err, marked_check "0xbeef" = Some err ->
          errors_Is err ErrEmptyString = false -> r = (None, Some err)).
Proof.
  apply (formatAndValidateText_result marked_check "0xbeef").
  exact marked_check_accepts_marked_only.
Defined.

(** X3 at the number "0x0", which [ensureStringInvariants] makes of the
    empty string. *)
Lemma formatAndValidateNumber_result_witness :
  exists r,
    formatAndValidateNumber marked_check (ensureStringInvariants "") = Returned r
    /\ (snd r = None ->
          (ensureStringInvariants "" = "0x" ++ fst r
           \/ ensureStringInvariants "" = "0X" ++ fst r)
          /\ (1 <= length (fst r))%nat
          /\ (byte_is (fst r) 0 "0" = true -> fst r = "0"))
    /\ (snd r <> None -> fst r = "").
Proof.
  apply (formatAndValidateNumber_result marked_check (ensureStringInvariants "")).
  exact marked_check_accepts_marked_only.
Defined.

(** What the two functions return on typical inputs. *)
Example formatAndValidate_examples :
  formatAndValidateText marked_check "0xbeef" = Returned (Some "beef", None)
  /\ formatAndValidateText marked_check "0xbee" = Returned (None, Some ErrOddLength)
  /\ formatAndValidateText marked_check "" = Returned (None, None)
  /\ formatAndValidateText marked_check "0x" = Returned (Some "", None)
  /\ formatAndValidateNumber marked_check "0x0" = Returned ("0", None)
  /\ formatAndValidateNumber marked_check "0x" = Returned ("", Some ErrEmptyNumber)
  /\ formatAndValidateNumber marked_check "0x01" = Returned ("", Some ErrLeadingZero)
  /\ formatAndValidateNumber marked_check "0X1f" = Returned ("1f", None).
Proof. repeat split. Qed.

End Hex.

(* ------------------------------------------------------------------------- *)
(** * Go values shared by the packages below                                  *)
(* ------------------------------------------------------------------------- *)

(** A byte slice element. *)
Definition bytes : Type := list Byte.byte.

(** The error values the embedded code creates, compares or passes on.  The
    sentinels are package-level variables of the repository; [Newf] is
    [errors.Newf] with its format string and integer arguments; [Foreign] is
    any error that a collaborator outside the embedded files hands back. *)
Inductive error : Type :=
| ErrNilABCIRequest                      (* runtime/abci/types *)
| ErrNoBeaconBlockInRequest
| ErrBzIndexOutOfBounds
| ErrNilBeaconBlockInRequest
| ErrInvalidProcessProposalRequestType   (* runtime/pkg/middleware *)
| ErrInvalidFinalizeBlockRequestType
| ErrNilPayload                          (* validator *)
| Newf (format : string) (args : list Z)
| Foreign (msg : string)
| Marked (fatal : bool) (inner : error). (* an error wrapped with its tier *)

(** Go's built-in [len] on a slice that may be nil. *)
Definition len {A : Type} (s : option (list A)) : N :=
  match s with
  | None => 0%N
  | Some l => N.of_nat (List.length l)
  end.

(** [s == nil] for a slice. *)
Definition is_nil {A : Type} (s : option (list A)) : bool :=
  match s with
  | None => true
  | Some _ => false
  end.

(** Go's index expression [s[i]]: it panics when [i] is not below [len s]. *)
Definition index {A : Type} (s : option (list A)) (i : N) : Outcome A :=
  match s with
  | None => Panicked
  | Some l =>
      match nth_error l (N.to_nat i) with
      | Some a => Returned a
      | None => Panicked
      end
  end.

Lemma index_in_range {A : Type} (s : option (list A)) (i : N) :
  (i < len s)%N -> exists a, index s i = Returned a.
Proof.
  destruct s as [l|]; cbn [len index]; [|lia].
  intros H.
  destruct (nth_error l (N.to_nat i)) as [a|] eqn:E.
  - now exists a.
  - apply nth_error_None in E. lia.
Qed.

(* ------------------------------------------------------------------------- *)
(** * Package runtime/abci/types: [block.go]                                  *)
(* ------------------------------------------------------------------------- *)

Module ABCITypes.

(** ABCIRequest is the interface for an ABCI request.  A transaction of the
    request is itself a byte slice and may be nil. *)
Record ABCIRequest : Type := {
  GetHeight : Z;
  GetTime : Z;
  GetTxs : option (list (option bytes))
}.

Section Extraction.

(** The decoded values and the two SSZ decoders, which live in packages
    outside the embedded files. *)
Variables ReadOnlyBeaconBlock BlobSidecars : Type.
Variable BeaconBlockFromSSZ : bytes -> Z -> ReadOnlyBeaconBlock + error.
Variable UnmarshalSSZ : bytes -> BlobSidecars + error.

(** ReadOnlyBeaconBlockFromABCIRequest assembles a new read-only beacon
    block by extracting a marshalled block out of an ABCI request. *)
Definition ReadOnlyBeaconBlockFromABCIRequest
    (req : option ABCIRequest) (bzIndex : N) (forkVersion : Z)
  : Outcome (ReadOnlyBeaconBlock + error) :=
  match req with
  | None => Returned (inr ErrNilABCIRequest)
  | Some req =>
      let txs := GetTxs req in
      let lenTxs := len txs in
      if is_nil txs || (lenTxs =? 0)%N then
        Returned (inr ErrNoBeaconBlockInRequest)
      else if (len txs <=? bzIndex)%N then
        Returned (inr ErrBzIndexOutOfBounds)
      else
        match index txs bzIndex with
        | Panicked => Panicked
        | Returned None => Returned (inr ErrNilBeaconBlockInRequest)
        | Returned (Some blkBz) =>
            Returned (BeaconBlockFromSSZ blkBz forkVersion)
        end
  end.

Definition GetBlobSideCars
    (req : option ABCIRequest) (bzIndex : N)
  : Outcome (BlobSidecars + error) :=
  match req with
  | None => Returned (inr ErrNilABCIRequest)
  | Some req =>
      let txs := GetTxs req in
      let lenTxs := len txs in
      if is_nil txs || (lenTxs =? 0)%N then
        Returned (inr ErrNoBeaconBlockInRequest)
      else if (len txs <=? bzIndex)%N then
        Returned (inr ErrBzIndexOutOfBounds)
      else
        match index txs bzIndex with
        | Panicked => Panicked
        | Returned None => Returned (inr ErrNilBeaconBlockInRequest)
        | Returned (Some sidecarBz) =>
            match UnmarshalSSZ sidecarBz with
            | inr err => Returned (inr err)
            | inl sidecars => Returned (inl sidecars)
            end
        end
  end.

(** The transaction list of a request holds nothing to extract. *)
Definition no_txs (req : ABCIRequest) : bool :=
  is_nil (GetTxs req) || (len (GetTxs req) =? 0)%N.

(** ** Properties *)

Lemma ReadOnlyBeaconBlockFromABCIRequest_in_range
    (req : ABCIRequest) (bzIndex : N) (forkVersion : Z) :
  no_txs req = false -> (bzIndex < len (GetTxs req))%N ->
  exists tx,
    index (GetTxs req) bzIndex = Returned tx
    /\ ReadOnlyBeaconBlockFromABCIRequest (Some req) bzIndex forkVersion
       = match tx with
         | None => Returned (inr ErrNilBeaconBlockInRequest)
         | Some blkBz => Returned (BeaconBlockFromSSZ blkBz forkVersion)
         end.
Proof.
  intros Hne Hlt.
  destruct (index_in_range (GetTxs req) bzIndex Hlt) as [tx Htx].
  exists tx. split; [exact Htx|].
  unfold ReadOnlyBeaconBlockFromABCIRequest.
  fold (no_txs req). rewrite Hne.
  apply N.leb_gt in Hlt. rewrite Hlt, Htx.
  destruct tx; reflexivity.
Qed.

Lemma GetBlobSideCars_in_range (req : ABCIRequest) (bzIndex : N) :
  no_txs req = false -> (bzIndex < len (GetTxs req))%N ->
  exists tx,
    index (GetTxs req) bzIndex = Returned tx
    /\ GetBlobSideCars (Some req) bzIndex
       = match tx with
         | None => Returned (inr ErrNilBeaconBlockInRequest)
         | Some sidecarBz =>
             match UnmarshalSSZ sidecarBz with
             | inr err => Returned (inr err)
             | inl sidecars => Returned (inl sidecars)
             end
         end.
Proof.
  intros Hne Hlt.
  destruct (index_in_range (GetTxs req) bzIndex Hlt) as [tx Htx].
  exists tx. split; [exact Htx|].
  unfold GetBlobSideCars.
  fold (no_txs req). rewrite Hne.
  apply N.leb_gt in Hlt. rewrite Hlt, Htx.
  destruct tx; reflexivity.
Qed.

(** C7: extracting the beacon block or the blob sidecars from a tx slot is
    total and never indexes out of bounds (no call panics); a nil request
    yields [ErrNilABCIRequest]; otherwise a nil or empty tx list yields
    [ErrNoBeaconBlockInRequest]; otherwise an index at or past the length of
    the tx list yields [ErrBzIndexOutOfBounds]; otherwise a nil tx at the
    index yields [ErrNilBeaconBlockInRequest]; and only a non-nil tx at an
    index inside the list reaches the decoder. *)
Theorem extraction_total_and_guarded :
  (forall req i fv,
      returns (ReadOnlyBeaconBlockFromABCIRequest req i fv) = true
      /\ returns (GetBlobSideCars req i) = true)
  /\ (forall i fv,
      ReadOnlyBeaconBlockFromABCIRequest None i fv
        = Returned (inr ErrNilABCIRequest)
      /\ GetBlobSideCars None i = Returned (inr ErrNilABCIRequest))
  /\ (forall req i fv,
      is_nil (GetTxs req) = true \/ len (GetTxs req) = 0%N ->
      ReadOnlyBeaconBlockFromABCIRequest (Some req) i fv
        = Returned (inr ErrNoBeaconBlockInRequest)
      /\ GetBlobSideCars (Some req) i
        = Returned (inr ErrNoBeaconBlockInRequest))
  /\ (forall req i fv,
      no_txs req = false -> (len (GetTxs req) <= i)%N ->
      ReadOnlyBeaconBlockFromABCIRequest (Some req) i fv
        = Returned (inr ErrBzIndexOutOfBounds)
      /\ GetBlobSideCars (Some req) i
        = Returned (inr ErrBzIndexOutOfBounds))
  /\ (forall req i fv,
      no_txs req = false -> (i < len (GetTxs req))%N ->
      index (GetTxs req) i = Returned None ->
      ReadOnlyBeaconBlockFromABCIRequest (Some req) i fv
        = Returned (inr ErrNilBeaconBlockInRequest)
      /\ GetBlobSideCars (Some req) i
        = Returned (inr ErrNilBeaconBlockInRequest))
  /\ (forall req i fv bz,
      no_txs req = false -> (i < len (GetTxs req))%N ->
      index (GetTxs req) i = Returned (Some bz) ->
      ReadOnlyBeaconBlockFromABCIRequest (Some req) i fv
        = Returned (BeaconBlockFromSSZ bz fv)
      /\ GetBlobSideCars (Some req) i
        = Returned (match UnmarshalSSZ bz with
                    | inr err => inr err
                    | inl sidecars => inl sidecars
                    end)).
Proof.
  split; [|split; [|split; [|split; [|split]]]].
  - intros [req|] i fv; [|split; reflexivity].
    destruct (no_txs req) eqn:Hne.
    + unfold ReadOnlyBeaconBlockFromABCIRequest, GetBlobSideCars.
      fold (no_txs req). rewrite Hne. split; reflexivity.
    + destruct (N.leb_spec (len (GetTxs req)) i) as [Hle|Hlt].
      * apply N.leb_le in Hle.
        unfold ReadOnlyBeaconBlockFromABCIRequest, GetBlobSideCars.
        fold (no_txs req). rewrite Hne, Hle. split; reflexivity.
      * destruct (ReadOnlyBeaconBlockFromABCIRequest_in_range req i fv Hne Hlt)
          as (tx & _ & ->).
        destruct (GetBlobSideCars_in_range req i Hne Hlt) as (tx' & _ & ->).
        split.
        -- destruct tx; reflexivity.
        -- destruct tx' as [bz|]; [destruct (UnmarshalSSZ bz)|]; reflexivity.
  - intros i fv. split; reflexivity.
  - intros req i fv H.
    assert (Hne : no_txs req = true).
    { unfold no_txs. destruct H as [-> | ->]; [reflexivity|].
      apply orb_true_r. }
    unfold ReadOnlyBeaconBlockFromABCIRequest, GetBlobSideCars.
    fold (no_txs req). rewrite Hne. split; reflexivity.
  - intros req i fv Hne Hle. apply N.leb_le in Hle.
    unfold ReadOnlyBeaconBlockFromABCIRequest, GetBlobSideCars.
    fold (no_txs req). rewrite Hne, Hle. split; reflexivity.
  - intros req i fv Hne Hlt Hix.
    destruct (ReadOnlyBeaconBlockFromABCIRequest_in_range req i fv Hne Hlt)
      as (tx & Htx & ->).
    destruct (GetBlobSideCars_in_range req i Hne Hlt) as (tx' & Htx' & ->).
    rewrite Hix in Htx, Htx'.
    injection Htx as <-. injection Htx' as <-. split; reflexivity.
  - intros req i fv bz Hne Hlt Hix.
    destruct (ReadOnlyBeaconBlockFromABCIRequest_in_range req i fv Hne Hlt)
      as (tx & Htx & ->).
    destruct (GetBlobSideCars_in_range req i Hne Hlt) as (tx' & Htx' & ->).
    rewrite Hix in Htx, Htx'.
    injection Htx as <-. injection Htx' as <-.
    split; [reflexivity|]. destruct (UnmarshalSSZ bz); reflexivity.
Qed.

End Extraction.

(** ** A concrete request

    Blocks and sidecars are their own bytes; the fork version is ignored. *)

Definition raw_block (bz : bytes) (forkVersion : Z) : bytes + error := inl bz.
Definition raw_sidecars (bz : bytes) : bytes + error := inl bz.

Definition two_slots : ABCIRequest :=
  {| GetHeight := 1; GetTime := 0;
     GetTxs := Some [Some [Byte.x01; Byte.x02]; None] |}.

Definition no_slots : ABCIRequest :=
  {| GetHeight := 1; GetTime := 0; GetTxs := Some [] |}.

Definition nil_slots : ABCIRequest :=
  {| GetHeight := 1; GetTime := 0; GetTxs := None |}.

(** C7 on the concrete requests: each guard, and a successful extraction. *)
Lemma extraction_total_and_guarded_witness :
  ReadOnlyBeaconBlockFromABCIRequest bytes raw_block (Some no_slots) 0 1
    = Returned (inr ErrNoBeaconBlockInRequest)
  /\ GetBlobSideCars bytes raw_sidecars (Some nil_slots) 1
    = Returned (inr ErrNoBeaconBlockInRequest)
  /\ ReadOnlyBeaconBlockFromABCIRequest bytes raw_block (Some two_slots) 2 1
    = Returned (inr ErrBzIndexOutOfBounds)
  /\ GetBlobSideCars bytes raw_sidecars (Some two_slots) 1
    = Returned (inr ErrNilBeaconBlockInRequest)
  /\ ReadOnlyBeaconBlockFromABCIRequest bytes raw_block (Some two_slots) 0 1
    = Returned (inl [Byte.x01; Byte.x02]).
Proof.
  destruct (extraction_total_and_guarded bytes bytes raw_block raw_sidecars)
    as (_ & _ & Hempty & Hpast & Hniltx & Hdecode).
  split; [|split; [|split; [|split]]].
  - apply (Hempty no_slots 0%N 1%Z). right. reflexivity.
  - apply (Hempty nil_slots 1%N 1%Z). left. reflexivity.
  - apply (Hpast two_slots 2%N 1%Z); [reflexivity|]. cbn. lia.
  - apply (Hniltx two_slots 1%N 1%Z); [reflexivity| |reflexivity]. cbn. lia.
  - apply (Hdecode two_slots 0%N 1%Z [Byte.x01; Byte.x02]);
      [reflexivity| |reflexivity]. cbn. lia.
Defined.

End ABCITypes.

(* ------------------------------------------------------------------------- *)
(** * Package runtime/pkg/middleware: [abci.go]                               *)
(* ------------------------------------------------------------------------- *)

Module Middleware.

(** ** The consensus engine's wire types (cometbft/abci/types) *)

Inductive ProcessProposalStatus : Type :=
| PROCESS_PROPOSAL_STATUS_UNKNOWN
| PROCESS_PROPOSAL_STATUS_ACCEPT
| PROCESS_PROPOSAL_STATUS_REJECT.

Record ProcessProposalRequest : Type := {
  pp_Txs : option (list (option bytes));
  pp_Height : Z
}.

Record FinalizeBlockRequest : Type := {
  Txs : option (list (option bytes));
  Height : Z                     (* int64 *)
}.

Record ProcessProposalResponse : Type := {
  Status : ProcessProposalStatus
}.

(** [proto.Message]: the dynamic type of a message handed to the middleware
    is what its type assertions look at.  A request message is a pointer,
    which may be nil ([None]) and still has its type; [NoMessage] is the nil
    interface, which has no type. *)
Inductive proto_Message : Type :=
| ProcessProposalRequestMsg (r : option ProcessProposalRequest)
| FinalizeBlockRequestMsg (r : option FinalizeBlockRequest)
| ProcessProposalResponseMsg (r : ProcessProposalResponse)
| NoMessage.

(** Modelled from the spec: the two constants [BeaconBlockTxIndex] and
    [BlobSidecarsTxIndex] are declared outside the embedded files; the spec
    fixes them: [txs[0]] is the beacon block, [txs[1]] the blob sidecars. *)
Definition BeaconBlockTxIndex : N := 0.
Definition BlobSidecarsTxIndex : N := 1.

(** [math.Slot(h)] for an [int64] height: the conversion to [uint64]. *)
Definition Slot_of_int64 (h : Z) : Z := h mod 2 ^ 64.

(** The middleware keeps the request of the block being finalized between
    [PreBlock] and [EndBlock]; the pointer is nil until [PreBlock] stores one. *)
Record ABCIMiddleware : Type := {
  req : option FinalizeBlockRequest
}.

(** The message identifiers of package [messages] that [abci.go] uses. *)
Inductive MessageID : Type :=
| ProcessGenesisData
| BuildBeaconBlockAndSidecars
| VerifyBeaconBlock
| VerifySidecars
| ProcessSidecars
| FinalizeBeaconBlock.

Definition MessageID_eqb (a b : MessageID) : bool :=
  match a, b with
  | ProcessGenesisData, ProcessGenesisData
  | BuildBeaconBlockAndSidecars, BuildBeaconBlockAndSidecars
  | VerifyBeaconBlock, VerifyBeaconBlock
  | VerifySidecars, VerifySidecars
  | ProcessSidecars, ProcessSidecars
  | FinalizeBeaconBlock, FinalizeBeaconBlock => true
  | _, _ => false
  end.

(** [asynctypes.Message[T]]: the envelope a responder answers with.  It
    carries the data and the responder's error. *)
Record Message (T : Type) : Type := {
  Data : T;
  Error : option error
}.

Arguments Data {T} m.
Arguments Error {T} m.

Section Handlers.

(** The type parameters of [ABCIMiddleware]. *)
Variables GenesisT SlotDataT BeaconBlockT BlobSidecarsT BeaconBlockBundleT
          ValidatorUpdate : Type.

(** [transition.ValidatorUpdates] is a slice; the handlers return nil. *)
Definition ValidatorUpdates : Type := option (list ValidatorUpdate).

Variable GetBeaconBlock : BeaconBlockBundleT -> BeaconBlockT.
Variable GetSidecars : BeaconBlockBundleT -> BlobSidecarsT.

(** Each message identifier carries a fixed payload/reply pair; the types
    are those of the [NewMessage] arguments and of the reply variables the
    handlers declare. *)
Definition payloadT (id : MessageID) : Type :=
  match id with
  | ProcessGenesisData => GenesisT
  | BuildBeaconBlockAndSidecars => SlotDataT
  | VerifyBeaconBlock => BeaconBlockT
  | VerifySidecars => BlobSidecarsT
  | ProcessSidecars => BlobSidecarsT
  | FinalizeBeaconBlock => BeaconBlockT
  end.

Definition replyT (id : MessageID) : Type :=
  match id with
  | ProcessGenesisData => ValidatorUpdates
  | BuildBeaconBlockAndSidecars => BeaconBlockBundleT
  | VerifyBeaconBlock => BeaconBlockT
  | VerifySidecars => BlobSidecarsT
  | ProcessSidecars => BlobSidecarsT
  | FinalizeBeaconBlock => ValidatorUpdates
  end.

(** What one call of [dispatcher.Request(msg, &resp)] leaves behind: the
    error the call returns and the reply variable, which the handlers
    declare as a nil pointer and which stays nil ([None]) unless the
    dispatcher stores an envelope in it. *)
Definition Answer (id : MessageID) : Type :=
  (option error * option (Message (replyT id)))%type.

(** ** Collaborators

    [C] is the joint state of everything the middleware talks to.  Each
    collaborator is a transition on [C]. *)
Variable C : Type.
Variable dispatcher_Request :
  forall id : MessageID, payloadT id -> C -> Answer id * C.
Variable beaconBlockGossiper_Request :
  option ProcessProposalRequest -> C -> (BeaconBlockT + error) * C.
Variable blobGossiper_Request :
  option ProcessProposalRequest -> C -> (BlobSidecarsT + error) * C.
Variable beaconBlockGossiper_Publish :
  BeaconBlockT -> C -> (option bytes * option error) * C.
Variable blobGossiper_Publish :
  BlobSidecarsT -> C -> (option bytes * option error) * C.
Variable json_Unmarshal : bytes -> GenesisT + error.
Variable ExtractBlobsAndBlockFromRequest :
  FinalizeBlockRequest -> N -> N -> Z -> (BeaconBlockT * BlobSidecarsT) + error.
Variable ActiveForkVersionForSlot : Z -> Z.

(** Package [errors]: the two-tier classification. *)
Variable IsFatal : option error -> bool.
Variable WrapNonFatal : error -> error.

(** ** The dispatcher's log and the handler monad *)

(** One entry per [dispatcher.Request] call, in call order: the message
    sent and the answer that came back.  A call is synchronous, so an entry
    also records that the request completed before the next one was
    issued. *)
Inductive Event : Type :=
| EvRequest (id : MessageID) (data : payloadT id) (answer : Answer id).

Record World : Type := {
  collaborators : C;
  log : list Event
}.

(** A handler threads the world and may panic. *)
Definition M (A : Type) : Type := World -> Outcome A * World.

Definition ret {A : Type} (a : A) : M A := fun w => (Returned a, w).

Definition bind {A B : Type} (m : M A) (k : A -> M B) : M B :=
  fun w =>
    match m w with
    | (Returned a, w') => k a w'
    | (Panicked, w') => (Panicked, w')
    end.

Definition panic {A : Type} : M A := fun w => (Panicked, w).

(** Run a collaborator that is not logged. *)
Definition call {A : Type} (f : C -> A * C) : M A :=
  fun w =>
    let '(a, c) := f (collaborators w) in
    (Returned a, {| collaborators := c; log := log w |}).

Notation "x <- m ;; k" := (bind m (fun x => k))
  (at level 100, m at next level, right associativity).
Notation "' pat <- m ;; k" := (bind m (fun x => match x with pat => k end))
  (at level 100, pat pattern, m at next level, right associativity).

(** [h.dispatcher.Request(asynctypes.NewMessage(ctx, id, data), &resp)]. *)
Definition Request (id : MessageID) (data : payloadT id) : M (Answer id) :=
  fun w =>
    let '(answer, c) := dispatcher_Request id data (collaborators w) in
    (Returned answer,
     {| collaborators := c; log := log w ++ [EvRequest id data answer] |}).

(** [resp.Error()] and [resp.Data()] on the reply variable: a method call
    through a nil pointer panics. *)
Definition Error_of {T : Type} (resp : option (Message T)) : M (option error) :=
  match resp with
  | Some m => ret (Error m)
  | None => panic
  end.

Definition Data_of {T : Type} (resp : option (Message T)) : M T :=
  match resp with
  | Some m => ret (Data m)
  | None => panic
  end.

(** The handlers also write to a logger and, through [defer], report their
    duration to a metrics sink; neither changes what a handler returns nor
    what it asks of the dispatcher, and both are left out. *)

(** ** InitGenesis *)

(** InitGenesis is called by the base app to initialize the state. *)
Definition InitGenesis (bz : bytes) : M (ValidatorUpdates * option error) :=
  match json_Unmarshal bz with
  | inr err => ret (None, Some err)
  | inl data =>
      '(err, valUpdateResp) <- Request ProcessGenesisData data ;;
      match err with
      | Some err => ret (None, Some err)
      | None =>
          d <- Data_of valUpdateResp ;;
          e <- Error_of valUpdateResp ;;
          ret (d, e)
      end
  end.

(** ** PrepareProposal *)

(** handleBeaconBlockBundleResponse gossips the built beacon block and blob
    sidecars to the network. *)
Definition handleBeaconBlockBundleResponse
    (bbbResp : option (Message BeaconBlockBundleT))
  : M (option bytes * option bytes * option error) :=
  e <- Error_of bbbResp ;;
  match e with
  | Some err => ret (None, None, Some err)
  | None =>
      d <- Data_of bbbResp ;;
      '(bbBz, bbErr) <- call (beaconBlockGossiper_Publish (GetBeaconBlock d)) ;;
      match bbErr with
      | Some err => ret (None, None, Some err)
      | None =>
          d <- Data_of bbbResp ;;
          '(scBz, scErr) <- call (blobGossiper_Publish (GetSidecars d)) ;;
          match scErr with
          | Some err => ret (None, None, Some err)
          | None => ret (bbBz, scBz, None)
          end
      end
  end.

(** prepareProposal is the internal handler for preparing proposals. *)
Definition PrepareProposal (slotData : SlotDataT)
  : M (option bytes * option bytes * option error) :=
  '(err, beaconBlkBundleResp) <- Request BuildBeaconBlockAndSidecars slotData ;;
  match err with
  | Some err => ret (None, None, Some err)
  | None => handleBeaconBlockBundleResponse beaconBlkBundleResp
  end.

(** ** ProcessProposal *)

(** createResponse generates the appropriate ProcessProposalResponse based
    on the error. *)
Definition createProcessProposalResponse (err : option error)
  : option proto_Message * option error :=
  let status := PROCESS_PROPOSAL_STATUS_REJECT in
  let '(status, err) :=
    if negb (IsFatal err)
    then (PROCESS_PROPOSAL_STATUS_ACCEPT, None)
    else (status, err) in
  (Some (ProcessProposalResponseMsg {| Status := status |}), err).

(** ProcessProposal processes the proposal for the ABCI middleware.  The
    value [dispatcher.Request] returns is dropped at both calls. *)
Definition ProcessProposal (req : proto_Message)
  : M (option proto_Message * option error) :=
  match req with
  | ProcessProposalRequestMsg abciReq =>
      r <- call (beaconBlockGossiper_Request abciReq) ;;
      match r with
      | inr err => ret (createProcessProposalResponse (Some (WrapNonFatal err)))
      | inl blk =>
          '(_, beaconBlockResp) <- Request VerifyBeaconBlock blk ;;
          e <- Error_of beaconBlockResp ;;
          match e with
          | Some _ => ret (createProcessProposalResponse e)
          | None =>
              r <- call (blobGossiper_Request abciReq) ;;
              match r with
              | inr err =>
                  ret (createProcessProposalResponse (Some (WrapNonFatal err)))
              | inl sidecars =>
                  '(_, sidecarsResp) <- Request VerifySidecars sidecars ;;
                  e <- Error_of sidecarsResp ;;
                  match e with
                  | Some _ => ret (createProcessProposalResponse e)
                  | None => ret (createProcessProposalResponse None)
                  end
              end
          end
      end
  | _ => ret (None, Some ErrInvalidProcessProposalRequestType)
  end.

(** ** FinalizeBlock *)

(** PreBlock is called by the base app before the block is finalized.  The
    pointer that passes the type assertion is stored as it is, nil or not. *)
Definition PreBlock (h : ABCIMiddleware) (msg : proto_Message)
  : ABCIMiddleware * option error :=
  match msg with
  | FinalizeBlockRequestMsg abciReq => ({| req := abciReq |}, None)
  | _ => (h, Some ErrInvalidFinalizeBlockRequestType)
  end.

(** EndBlock returns the validator set updates from the beacon state.  Here
    too the value [dispatcher.Request] returns is dropped at both calls. *)
Definition EndBlock (h : ABCIMiddleware) : M (ValidatorUpdates * option error) :=
  match req h with
  | None => panic                     (* h.req.Height through a nil pointer *)
  | Some r =>
      match ExtractBlobsAndBlockFromRequest r
              BeaconBlockTxIndex BlobSidecarsTxIndex
              (ActiveForkVersionForSlot (Slot_of_int64 (Height r))) with
      | inr _ =>
          (* If we don't have a block, we can't do anything. *)
          ret (None, None)
      | inl (blk, blobs) =>
          '(_, sidecarsResp) <- Request ProcessSidecars blobs ;;
          e <- Error_of sidecarsResp ;;
          match e with
          | Some _ => ret (None, e)
          | None =>
              '(_, valUpdatesResp) <- Request FinalizeBeaconBlock blk ;;
              d <- Data_of valUpdatesResp ;;
              e <- Error_of valUpdatesResp ;;
              ret (d, e)
          end
      end
  end.

(** ** Reading the dispatcher's log *)

Definition event_id (ev : Event) : MessageID :=
  match ev with
  | EvRequest id _ _ => id
  end.

(** The error the call itself returned (dropped by [ProcessProposal] and
    [EndBlock]). *)
Definition request_error (ev : Event) : option error :=
  match ev with
  | EvRequest _ _ (err, _) => err
  end.

(** The error inside the reply envelope, when an envelope came back. *)
Definition reply_error (ev : Event) : option error :=
  match ev with
  | EvRequest _ _ (_, Some m) => Error m
  | EvRequest _ _ (_, None) => None
  end.

(** The request was answered with an envelope that carries no error. *)
Definition completed_without_error (ev : Event) : bool :=
  match ev with
  | EvRequest _ _ (_, Some m) =>
      match Error m with
      | None => true
      | Some _ => false
      end
  | EvRequest _ _ (_, None) => false
  end.

(** A request with identifier [id] was issued. *)
Definition issued (id : MessageID) (evs : list Event) : bool :=
  existsb (fun ev => MessageID_eqb (event_id ev) id) evs.

(** Some reply carried an error that [IsFatal] classifies as fatal. *)
Definition fatal_reply (ev : Event) : bool :=
  match reply_error ev with
  | Some e => IsFatal (Some e)
  | None => false
  end.

Definition fatal_verification_error (evs : list Event) : bool :=
  existsb fatal_reply evs.

(** Every request is answered with an envelope. *)
Definition dispatcher_delivers : Prop :=
  forall (id : MessageID) (data : payloadT id) (c : C),
    snd (fst (dispatcher_Request id data c)) <> None.

(** ** Properties of [ProcessProposal] *)

(** Unfold one handler down to the collaborators' answers. *)
Ltac run_handler :=
  unfold bind, Request, call, ret, panic, Error_of, Data_of; cbn [fst snd].

Lemma createProcessProposalResponse_fatal (err : option error) :
  IsFatal err = true ->
  createProcessProposalResponse err
  = (Some (ProcessProposalResponseMsg
             {| Status := PROCESS_PROPOSAL_STATUS_REJECT |}), err).
Proof. intros H. unfold createProcessProposalResponse. now rewrite H. Qed.

Lemma createProcessProposalResponse_non_fatal (err : option error) :
  IsFatal err = false ->
  createProcessProposalResponse err
  = (Some (ProcessProposalResponseMsg
             {| Status := PROCESS_PROPOSAL_STATUS_ACCEPT |}), None).
Proof. intros H. unfold createProcessProposalResponse. now rewrite H. Qed.

(** A message of any other dynamic type is refused before any collaborator
    is called; no response is built. *)
Lemma ProcessProposal_wrong_type (msg : proto_Message) (w : World) :
  (forall r, msg <> ProcessProposalRequestMsg r) ->
  ProcessProposal msg w
  = (Returned (None, Some ErrInvalidProcessProposalRequestType), w).
Proof.
  intros H. destruct msg as [r| | |]; try reflexivity.
  now destruct (H r).
Qed.

(** The log entries one [ProcessProposal] call can add: nothing, the block
    verification alone, or the block verification answered without error
    followed by the sidecar verification. *)
Inductive proposal_log : list Event -> Prop :=
| proposal_log_none : proposal_log []
| proposal_log_block (blk : BeaconBlockT) (a : Answer VerifyBeaconBlock) :
    proposal_log [EvRequest VerifyBeaconBlock blk a]
| proposal_log_both
    (blk : BeaconBlockT) (a : Answer VerifyBeaconBlock)
    (sidecars : BlobSidecarsT) (a' : Answer VerifySidecars) :
    completed_without_error (EvRequest VerifyBeaconBlock blk a) = true ->
    proposal_log [EvRequest VerifyBeaconBlock blk a;
                  EvRequest VerifySidecars sidecars a'].

Lemma ProcessProposal_log (msg : proto_Message) (w : World) :
  exists evs,
    log (snd (ProcessProposal msg w)) = log w ++ evs /\ proposal_log evs.
Proof.
  destruct msg as [abciReq| | |];
    try (exists []; split; [cbn; now rewrite app_nil_r | constructor]).
  unfold ProcessProposal. run_handler.
  destruct (beaconBlockGossiper_Request abciReq (collaborators w))
    as [[blk|err] c1]; cbn -[app createProcessProposalResponse].
  2:{ exists []. split; [now rewrite app_nil_r | constructor]. }
  destruct (dispatcher_Request VerifyBeaconBlock blk c1)
    as [[ferr [[d [e|]]|]] c2]; cbn -[app createProcessProposalResponse];
    try (eexists; split; [reflexivity | constructor]).
  destruct (blobGossiper_Request abciReq c2) as [[sidecars|err] c3];
    cbn -[app createProcessProposalResponse];
    try (eexists; split; [reflexivity | constructor]).
  destruct (dispatcher_Request VerifySidecars sidecars c3)
    as [[ferr' [[d' [e'|]]|]] c4]; cbn -[app createProcessProposalResponse];
    (eexists; split; [now rewrite <- app_assoc | now constructor]).
Qed.

(** C3: inside [ProcessProposal] the block verification request completes
    strictly before the sidecar verification request is issued, and a block
    verification that answers with an error ends the call: the entries a
    call adds to the dispatcher's log are none, or the [VerifyBeaconBlock]
    request alone, or that request answered without error followed by the
    [VerifySidecars] request; so [VerifySidecars] is issued only after a
    [VerifyBeaconBlock] answered without error, and never when the block
    verification returned an error. *)
Theorem ProcessProposal_verifies_block_before_sidecars
    (msg : proto_Message) (w : World) :
  exists evs,
    log (snd (ProcessProposal msg w)) = log w ++ evs
    /\ proposal_log evs
    /\ (issued VerifySidecars evs = true ->
        exists blk a sidecars a',
          evs = [EvRequest VerifyBeaconBlock blk a;
                 EvRequest VerifySidecars sidecars a']
          /\ completed_without_error (EvRequest VerifyBeaconBlock blk a) = true)
    /\ (forall ev e,
          In ev evs -> event_id ev = VerifyBeaconBlock ->
          reply_error ev = Some e ->
          issued VerifySidecars evs = false).
Proof.
  destruct (ProcessProposal_log msg w) as (evs & Hlog & Hshape).
  exists evs. split; [exact Hlog|]. split; [exact Hshape|].
  destruct Hshape as [|blk a|blk a sidecars a' Hok].
  - split; [discriminate|]. intros ev e [].
  - split; [discriminate|]. reflexivity.
  - split.
    + intros _. now exists blk, a, sidecars, a'.
    + intros ev e [<-|[<-|[]]] Hid Herr.
      * exfalso. destruct a as [ferr [m|]]; cbn in *; [|discriminate].
        rewrite Herr in Hok. discriminate.
      * discriminate.
Qed.

(** Every request returns no error and stores a reply. *)
Definition dispatcher_succeeds : Prop :=
  forall (id : MessageID) (data : payloadT id) (c : C),
    exists m, fst (dispatcher_Request id data c) = (None, Some m).

(** What a [ProcessProposal] call on the pointer [abciReq] asks of its
    collaborators, starting from their state [c]: the log entries it adds,
    each with the answer the dispatcher gave, and the state it leaves.  The
    block is read from the request; when that succeeds it is sent for
    verification; when the reply carries no error the sidecars are read; when
    that succeeds they are sent for verification. *)
Inductive verification_run (abciReq : option ProcessProposalRequest) (c : C)
  : list Event -> C -> Prop :=
| run_unread_block (err : error) (c1 : C) :
    beaconBlockGossiper_Request abciReq c = (inr err, c1) ->
    verification_run abciReq c [] c1
| run_block_refused
    (blk : BeaconBlockT) (c1 c2 : C) (a : Answer VerifyBeaconBlock) (e : error) :
    beaconBlockGossiper_Request abciReq c = (inl blk, c1) ->
    dispatcher_Request VerifyBeaconBlock blk c1 = (a, c2) ->
    reply_error (EvRequest VerifyBeaconBlock blk a) = Some e ->
    verification_run abciReq c [EvRequest VerifyBeaconBlock blk a] c2
| run_unread_sidecars
    (blk : BeaconBlockT) (c1 c2 c3 : C) (a : Answer VerifyBeaconBlock)
    (err : error) :
    beaconBlockGossiper_Request abciReq c = (inl blk, c1) ->
    dispatcher_Request VerifyBeaconBlock blk c1 = (a, c2) ->
    completed_without_error (EvRequest VerifyBeaconBlock blk a) = true ->
    blobGossiper_Request abciReq c2 = (inr err, c3) ->
    verification_run abciReq c [EvRequest VerifyBeaconBlock blk a] c3
| run_both
    (blk : BeaconBlockT) (c1 c2 c3 c4 : C) (a : Answer VerifyBeaconBlock)
    (sidecars : BlobSidecarsT) (a' : Answer VerifySidecars) :
    beaconBlockGossiper_Request abciReq c = (inl blk, c1) ->
    dispatcher_Request VerifyBeaconBlock blk c1 = (a, c2) ->
    completed_without_error (EvRequest VerifyBeaconBlock blk a) = true ->
    blobGossiper_Request abciReq c2 = (inl sidecars, c3) ->
    dispatcher_Request VerifySidecars sidecars c3 = (a', c4) ->
    verification_run abciReq c
      [EvRequest VerifyBeaconBlock blk a; EvRequest VerifySidecars sidecars a']
      c4.

(** C1 (amended): for every [ProcessProposal] call whose message is a
    [ProcessProposalRequest], with a dispatcher whose requests all return no
    error and store a reply, the block read from the request is sent for
    verification and, when its reply carries no error, so are the sidecars;
    a response is returned and its status is ACCEPT exactly when no reply
    of these verifications carried a fatal error: without a fatal error (no
    error at all, a failure to read the block or the sidecars from the
    request, which is wrapped as non-fatal, or a non-fatal verification
    error) the status is ACCEPT and the returned error is nil; with a fatal
    verification error the status is REJECT and that error is returned.  A
    message of any other type, and the nil interface, get no response: the
    call returns nil and [ErrInvalidProcessProposalRequestType] and asks
    nothing of its collaborators. *)
Theorem ProcessProposal_status
    (abciReq : option ProcessProposalRequest) (w : World) :
  IsFatal None = false ->
  (forall e, IsFatal (Some (WrapNonFatal e)) = false) ->
  dispatcher_succeeds ->
  (exists status err w' evs,
      ProcessProposal (ProcessProposalRequestMsg abciReq) w
      = (Returned (Some (ProcessProposalResponseMsg {| Status := status |}),
                   err), w')
      /\ log w' = log w ++ evs
      /\ verification_run abciReq (collaborators w) evs (collaborators w')
      /\ (status = PROCESS_PROPOSAL_STATUS_ACCEPT
          <-> fatal_verification_error evs = false)
      /\ (fatal_verification_error evs = false ->
          status = PROCESS_PROPOSAL_STATUS_ACCEPT /\ err = None)
      /\ (fatal_verification_error evs = true ->
          status = PROCESS_PROPOSAL_STATUS_REJECT
          /\ exists e, err = Some e /\ IsFatal (Some e) = true
                       /\ In (Some e) (map reply_error evs)))
  /\ (forall msg,
        (forall r, msg <> ProcessProposalRequestMsg r) ->
        ProcessProposal msg w
        = (Returned (None, Some ErrInvalidProcessProposalRequestType), w)).
Proof.
  intros Hnil Hwrap Hsuc. split; [|intros msg; apply ProcessProposal_wrong_type].
  unfold ProcessProposal. run_handler.
  destruct (beaconBlockGossiper_Request abciReq (collaborators w))
    as [[blk|err] c1] eqn:Hg; cbn -[app createProcessProposalResponse].
  2:{ rewrite createProcessProposalResponse_non_fatal by apply Hwrap.
      do 3 eexists. exists []. rewrite app_nil_r.
      split; [reflexivity|]. split; [reflexivity|].
      split; [exact (run_unread_block _ _ err c1 Hg)|].
      repeat split; try reflexivity; cbn; discriminate. }
  destruct (Hsuc VerifyBeaconBlock blk c1) as [m Hm].
  destruct (dispatcher_Request VerifyBeaconBlock blk c1)
    as [a c2] eqn:Hd1. cbn [fst] in Hm. subst a.
  destruct m as [d [e|]]; cbn -[app createProcessProposalResponse].
  { assert (Hrun : verification_run abciReq (collaborators w)
                     [EvRequest VerifyBeaconBlock blk
                        (None, Some {| Data := d; Error := Some e |})] c2)
      by (eapply run_block_refused; [exact Hg | exact Hd1 | reflexivity]).
    destruct (IsFatal (Some e)) eqn:Hf.
    - rewrite createProcessProposalResponse_fatal by exact Hf.
      do 4 eexists. split; [reflexivity|]. split; [reflexivity|].
      split; [exact Hrun|].
      cbn. unfold fatal_reply. cbn. rewrite Hf. cbn.
      repeat split; try discriminate.
      exists e. repeat split; auto.
    - rewrite createProcessProposalResponse_non_fatal by exact Hf.
      do 4 eexists. split; [reflexivity|]. split; [reflexivity|].
      split; [exact Hrun|].
      cbn. unfold fatal_reply. cbn. rewrite Hf. cbn.
      repeat split; try discriminate. }
  destruct (blobGossiper_Request abciReq c2) as [[sidecars|err] c3] eqn:Hs;
    cbn -[app createProcessProposalResponse].
  2:{ rewrite createProcessProposalResponse_non_fatal by apply Hwrap.
      do 4 eexists. split; [reflexivity|]. split; [reflexivity|].
      split; [eapply run_unread_sidecars;
              [exact Hg | exact Hd1 | reflexivity | exact Hs]|].
      cbn. repeat split; try discriminate. }
  destruct (Hsuc VerifySidecars sidecars c3) as [m' Hm'].
  destruct (dispatcher_Request VerifySidecars sidecars c3)
    as [a' c4] eqn:Hd2. cbn [fst] in Hm'. subst a'.
  assert (Hrun : verification_run abciReq (collaborators w)
                   [EvRequest VerifyBeaconBlock blk
                      (None, Some {| Data := d; Error := None |});
                    EvRequest VerifySidecars sidecars (None, Some m')] c4)
    by (eapply run_both;
        [exact Hg | exact Hd1 | reflexivity | exact Hs | exact Hd2]).
  destruct m' as [d' [e'|]]; cbn -[app createProcessProposalResponse].
  - destruct (IsFatal (Some e')) eqn:Hf.
    + rewrite createProcessProposalResponse_fatal by exact Hf.
      do 4 eexists. split; [reflexivity|].
      split; [now rewrite <- app_assoc|].
      split; [exact Hrun|].
      cbn. unfold fatal_reply. cbn. rewrite Hf. cbn.
      repeat split; try discriminate.
      exists e'. repeat split; auto.
    + rewrite createProcessProposalResponse_non_fatal by exact Hf.
      do 4 eexists. split; [reflexivity|].
      split; [now rewrite <- app_assoc|].
      split; [exact Hrun|].
      cbn. unfold fatal_reply. cbn. rewrite Hf. cbn.
      repeat split; try discriminate.
  - rewrite createProcessProposalResponse_non_fatal by exact Hnil.
    do 4 eexists. split; [reflexivity|].
    split; [now rewrite <- app_assoc|].
    split; [exact Hrun|].
    cbn. repeat split; try discriminate.
Qed.

(** ** Properties of [EndBlock] *)

(** The log entries one [EndBlock] call can add: nothing, the sidecar
    request alone, or the sidecar request answered without error followed
    by the finalization request. *)
Inductive finalize_log : list Event -> Prop :=
| finalize_log_none : finalize_log []
| finalize_log_sidecars (blobs : BlobSidecarsT) (a : Answer ProcessSidecars) :
    finalize_log [EvRequest ProcessSidecars blobs a]
| finalize_log_both
    (blobs : BlobSidecarsT) (a : Answer ProcessSidecars)
    (blk : BeaconBlockT) (a' : Answer FinalizeBeaconBlock) :
    completed_without_error (EvRequest ProcessSidecars blobs a) = true ->
    finalize_log [EvRequest ProcessSidecars blobs a;
                  EvRequest FinalizeBeaconBlock blk a'].

(** Sidecar persistence happens before the state transition. *)
Lemma EndBlock_log (h : ABCIMiddleware) (w : World) :
  exists evs,
    log (snd (EndBlock h w)) = log w ++ evs /\ finalize_log evs.
Proof.
  unfold EndBlock.
  destruct (req h) as [r|];
    [|exists []; split; [cbn; now rewrite app_nil_r | constructor]].
  destruct (ExtractBlobsAndBlockFromRequest _ _ _ _) as [[blk blobs]|err];
    [|exists []; split; [cbn; now rewrite app_nil_r | constructor]].
  run_handler.
  destruct (dispatcher_Request ProcessSidecars blobs (collaborators w))
    as [[ferr [[d [e|]]|]] c1]; cbn -[app];
    try (eexists; split; [reflexivity | constructor]).
  destruct (dispatcher_Request FinalizeBeaconBlock blk c1)
    as [[ferr' [[d' e']|]] c2]; cbn -[app];
    (eexists; split; [now rewrite <- app_assoc | now constructor]).
Qed.

(** An error that [EndBlock] returns is the error of a reply envelope. *)
Lemma EndBlock_error_origin
    (h : ABCIMiddleware) (w w' : World) (updates : ValidatorUpdates) (e : error) :
  EndBlock h w = (Returned (updates, Some e), w') ->
  exists evs ev,
    log w' = log w ++ evs /\ In ev evs /\ reply_error ev = Some e.
Proof.
  unfold EndBlock.
  destruct (req h) as [r|]; [|discriminate].
  destruct (ExtractBlobsAndBlockFromRequest _ _ _ _) as [[blk blobs]|err];
    [|discriminate].
  run_handler.
  destruct (dispatcher_Request ProcessSidecars blobs (collaborators w))
    as [[ferr [[d [e1|]]|]] c1]; cbn -[app]; try discriminate.
  - intros H. injection H as _ <- <-.
    do 2 eexists. split; [reflexivity|]. split; [now left | reflexivity].
  - destruct (dispatcher_Request FinalizeBeaconBlock blk c1)
      as [[ferr' [[d' e']|]] c2]; cbn -[app]; try discriminate.
    intros H. injection H as _ -> <-.
    do 2 eexists. split; [now rewrite <- app_assoc|].
    split; [right; now left | reflexivity].
Qed.

(** A sidecar reply that carries an error is returned, and the beacon block
    is not finalized. *)
Lemma EndBlock_sidecars_reply_error
    (h : ABCIMiddleware) (w : World) (r : FinalizeBlockRequest)
    (blk : BeaconBlockT) (blobs : BlobSidecarsT)
    (ferr : option error) (m : Message BlobSidecarsT) (c : C) (e : error) :
  req h = Some r ->
  ExtractBlobsAndBlockFromRequest r BeaconBlockTxIndex BlobSidecarsTxIndex
    (ActiveForkVersionForSlot (Slot_of_int64 (Height r))) = inl (blk, blobs) ->
  dispatcher_Request ProcessSidecars blobs (collaborators w)
    = ((ferr, Some m), c) ->
  Error m = Some e ->
  EndBlock h w
  = (Returned (None, Some e),
     {| collaborators := c;
        log := log w ++ [EvRequest ProcessSidecars blobs (ferr, Some m)] |}).
Proof.
  intros Hreq Hex Hd He. unfold EndBlock. rewrite Hreq, Hex.
  run_handler. rewrite Hd. destruct m as [d e0]. cbn in He. subst e0.
  reflexivity.
Qed.

(** When both requests are answered, the result of the finalization reply,
    data and error, is what [EndBlock] returns. *)
Lemma EndBlock_finalize_reply
    (h : ABCIMiddleware) (w : World) (r : FinalizeBlockRequest)
    (blk : BeaconBlockT) (blobs : BlobSidecarsT)
    (ferr ferr' : option error) (m : Message BlobSidecarsT)
    (m' : Message ValidatorUpdates) (c c' : C) :
  req h = Some r ->
  ExtractBlobsAndBlockFromRequest r BeaconBlockTxIndex BlobSidecarsTxIndex
    (ActiveForkVersionForSlot (Slot_of_int64 (Height r))) = inl (blk, blobs) ->
  dispatcher_Request ProcessSidecars blobs (collaborators w)
    = ((ferr, Some m), c) ->
  Error m = None ->
  dispatcher_Request FinalizeBeaconBlock blk c = ((ferr', Some m'), c') ->
  EndBlock h w
  = (Returned (Data m', Error m'),
     {| collaborators := c';
        log := log w ++ [EvRequest ProcessSidecars blobs (ferr, Some m);
                         EvRequest FinalizeBeaconBlock blk (ferr', Some m')] |}).
Proof.
  intros Hreq Hex Hd He Hd'. unfold EndBlock. rewrite Hreq, Hex.
  run_handler. rewrite Hd. destruct m as [d e0]. cbn in He. subst e0.
  cbn -[app]. rewrite Hd'. destruct m' as [d' e']. cbn -[app].
  now rewrite <- app_assoc.
Qed.

(** C9: if the request held by the middleware does not yield a beacon block
    and sidecars at the fixed tx indices, [EndBlock] returns nil validator
    updates and a nil error, and sends nothing to the dispatcher. *)
Theorem EndBlock_without_block
    (h : ABCIMiddleware) (w : World) (r : FinalizeBlockRequest) (err : error) :
  req h = Some r ->
  ExtractBlobsAndBlockFromRequest r BeaconBlockTxIndex BlobSidecarsTxIndex
    (ActiveForkVersionForSlot (Slot_of_int64 (Height r))) = inr err ->
  EndBlock h w = (Returned (None, None), w).
Proof.
  intros Hreq Hex. unfold EndBlock. now rewrite Hreq, Hex.
Qed.

(** ** Properties of [PrepareProposal] *)

(** C5: whenever [PrepareProposal] fails, both returned byte slices are
    nil, at whichever stage the failure arises: the build request itself
    fails, the build reply carries an error, publishing the block fails, or
    publishing the sidecars fails (even when the gossiper handed back
    bytes together with its error, and even after the block was published
    with success). *)
Theorem PrepareProposal_failure_is_empty (slotData : SlotDataT) (w : World) :
  (forall bb sc e w',
      PrepareProposal slotData w = (Returned (bb, sc, Some e), w') ->
      bb = None /\ sc = None)
  /\ (forall e resp c,
      dispatcher_Request BuildBeaconBlockAndSidecars slotData (collaborators w)
        = ((Some e, resp), c) ->
      fst (PrepareProposal slotData w) = Returned (None, None, Some e))
  /\ (forall m c e,
      dispatcher_Request BuildBeaconBlockAndSidecars slotData (collaborators w)
        = ((None, Some m), c) ->
      Error m = Some e ->
      fst (PrepareProposal slotData w) = Returned (None, None, Some e))
  /\ (forall m c bbBz e c',
      dispatcher_Request BuildBeaconBlockAndSidecars slotData (collaborators w)
        = ((None, Some m), c) ->
      Error m = None ->
      beaconBlockGossiper_Publish (GetBeaconBlock (Data m)) c
        = ((bbBz, Some e), c') ->
      fst (PrepareProposal slotData w) = Returned (None, None, Some e))
  /\ (forall m c bbBz c' scBz e c'',
      dispatcher_Request BuildBeaconBlockAndSidecars slotData (collaborators w)
        = ((None, Some m), c) ->
      Error m = None ->
      beaconBlockGossiper_Publish (GetBeaconBlock (Data m)) c
        = ((bbBz, None), c') ->
      blobGossiper_Publish (GetSidecars (Data m)) c' = ((scBz, Some e), c'') ->
      fst (PrepareProposal slotData w) = Returned (None, None, Some e)).
Proof.
  unfold PrepareProposal, handleBeaconBlockBundleResponse. run_handler.
  destruct (dispatcher_Request BuildBeaconBlockAndSidecars slotData
              (collaborators w)) as [[ferr resp] c1].
  split; [|split; [|split; [|split]]].
  - destruct ferr as [e0|]; cbn -[app].
    { intros bb sc e w' H. now injection H as <- <- _ _. }
    destruct resp as [[d [e0|]]|]; cbn -[app]; try discriminate.
    { intros bb sc e w' H. now injection H as <- <- _ _. }
    destruct (beaconBlockGossiper_Publish (GetBeaconBlock d) c1)
      as [[bbBz [e1|]] c2]; cbn -[app].
    { intros bb sc e w' H. now injection H as <- <- _ _. }
    destruct (blobGossiper_Publish (GetSidecars d) c2)
      as [[scBz [e2|]] c3]; cbn -[app].
    { intros bb sc e w' H. now injection H as <- <- _ _. }
    discriminate.
  - intros e resp' c H. injection H as -> -> ->. reflexivity.
  - intros [d e0] c e H He. injection H as -> -> ->.
    cbn in He. subst e0. reflexivity.
  - intros [d e0] c bbBz e c' H He Hp. injection H as -> -> ->.
    cbn in He, Hp. subst e0. cbn -[app]. rewrite Hp. reflexivity.
  - intros [d e0] c bbBz c' scBz e c'' H He Hp Hp'. injection H as -> -> ->.
    cbn in He, Hp, Hp'. subst e0. cbn -[app]. rewrite Hp. cbn -[app].
    rewrite Hp'. reflexivity.
Qed.

(** ** Further properties of the handlers *)

(** X4: [InitGenesis] returns no error exactly when the genesis data
    decodes, the one [ProcessGenesisData] request returns no error, and its
    reply carries none; the validator updates are then the reply's data.  An
    error returned by the request itself is returned to the caller, whatever
    the reply variable holds. *)
Theorem InitGenesis_success_and_request_error (bz : bytes) (w : World) :
  (forall updates w',
      InitGenesis bz w = (Returned (updates, None), w')
      <-> exists data m c,
            json_Unmarshal bz = inl data
            /\ dispatcher_Request ProcessGenesisData data (collaborators w)
               = ((None, Some m), c)
            /\ Error m = None
            /\ updates = Data m
            /\ w' = {| collaborators := c;
                       log := log w ++ [EvRequest ProcessGenesisData data
                                          (None, Some m)] |})
  /\ (forall data err resp c,
      json_Unmarshal bz = inl data ->
      dispatcher_Request ProcessGenesisData data (collaborators w)
        = ((Some err, resp), c) ->
      fst (InitGenesis bz w) = Returned (None, Some err))
  /\ (forall err,
      json_Unmarshal bz = inr err ->
      InitGenesis bz w = (Returned (None, Some err), w)).
Proof.
  unfold InitGenesis. split; [|split].
  - intros updates w'. split.
    + destruct (json_Unmarshal bz) as [data|err]; [|discriminate].
      run_handler.
      destruct (dispatcher_Request ProcessGenesisData data (collaborators w))
        as [[[e|] [[d [e'|]]|]] c] eqn:Hd; cbn -[app]; try discriminate.
      intros H. injection H as <- <-.
      exists data, {| Data := d; Error := None |}, c. now repeat split.
    + intros (data & [d e] & c & -> & Hd & He & -> & ->).
      cbn in He. subst e. run_handler. rewrite Hd. reflexivity.
  - intros data err resp c -> Hd. run_handler. now rewrite Hd.
  - intros err ->. reflexivity.
Qed.

(** X5: inside [EndBlock] the sidecars are persisted before the block is
    finalized: the entries a call adds to the dispatcher's log are none, or
    the [ProcessSidecars] request alone, or that request answered without
    error followed by the [FinalizeBeaconBlock] request; so the block is
    finalized only after the sidecars request was answered without error,
    and never when the reply to it carried an error. *)
Theorem EndBlock_persists_sidecars_before_finalizing
    (h : ABCIMiddleware) (w : World) :
  exists evs,
    log (snd (EndBlock h w)) = log w ++ evs
    /\ finalize_log evs
    /\ (issued FinalizeBeaconBlock evs = true ->
        exists blobs a blk a',
          evs = [EvRequest ProcessSidecars blobs a;
                 EvRequest FinalizeBeaconBlock blk a']
          /\ completed_without_error (EvRequest ProcessSidecars blobs a) = true)
    /\ (forall ev e,
          In ev evs -> event_id ev = ProcessSidecars ->
          reply_error ev = Some e ->
          issued FinalizeBeaconBlock evs = false).
Proof.
  destruct (EndBlock_log h w) as (evs & Hlog & Hshape).
  exists evs. split; [exact Hlog|]. split; [exact Hshape|].
  destruct Hshape as [|blobs a|blobs a blk a' Hok].
  - split; [discriminate|]. intros ev e [].
  - split; [discriminate|]. reflexivity.
  - split.
    + intros _. now exists blobs, a, blk, a'.
    + intros ev e [<-|[<-|[]]] Hid Herr.
      * exfalso. destruct a as [ferr [m|]]; cbn in *; [|discriminate].
        rewrite Herr in Hok. discriminate.
      * discriminate.
Qed.

(** X6: when the middleware holds a request that yields a block and
    sidecars, and the dispatcher answers every request with an envelope,
    [EndBlock] returns, and the error it returns is exactly the error a reply
    carried: the sidecars reply's, or else the finalization reply's.  It
    returns no error only after the block was finalized. *)
Theorem EndBlock_returns_reply_errors
    (h : ABCIMiddleware) (w : World) (r : FinalizeBlockRequest)
    (blk : BeaconBlockT) (blobs : BlobSidecarsT) :
  req h = Some r ->
  ExtractBlobsAndBlockFromRequest r BeaconBlockTxIndex BlobSidecarsTxIndex
    (ActiveForkVersionForSlot (Slot_of_int64 (Height r))) = inl (blk, blobs) ->
  dispatcher_delivers ->
  exists updates err w' evs,
    EndBlock h w = (Returned (updates, err), w')
    /\ log w' = log w ++ evs
    /\ (forall e, err = Some e
                  <-> exists ev, In ev evs /\ reply_error ev = Some e)
    /\ (err = None -> issued FinalizeBeaconBlock evs = true).
Proof.
  intros Hreq Hex Hdel. unfold EndBlock. rewrite Hreq, Hex. run_handler.
  pose proof (Hdel ProcessSidecars blobs (collaborators w)) as Hd1.
  destruct (dispatcher_Request ProcessSidecars blobs (collaborators w))
    as [[ferr [[d [e1|]]|]] c1]; cbn in Hd1; [| |congruence]; cbn -[app].
  - do 4 eexists. split; [reflexivity|]. split; [reflexivity|].
    split; [|discriminate].
    intros e. split.
    + intros [= <-]. eexists. split; [now left | reflexivity].
    + intros (ev & [<-|[]] & He). cbn in He. congruence.
  - pose proof (Hdel FinalizeBeaconBlock blk c1) as Hd2.
    destruct (dispatcher_Request FinalizeBeaconBlock blk c1)
      as [[ferr' [[d' e']|]] c2]; cbn in Hd2; [|congruence]; cbn -[app].
    do 4 eexists. split; [reflexivity|].
    split; [now rewrite <- app_assoc|].
    split; [|reflexivity].
    intros e. split.
    + intros ->. eexists. split; [right; now left | reflexivity].
    + intros (ev & [<-|[<-|[]]] & He); cbn in He; congruence.
Qed.

(** X7: [PreBlock] refuses a message that is not a [FinalizeBlockRequest]
    pointer, leaving the middleware as it was (a request stored earlier stays
    in place), and stores the pointer of one that is, nil or not, returning
    no error.  After a [PreBlock] that returned no error, [EndBlock] panics
    when the stored pointer is nil, asking nothing of the dispatcher, and
    otherwise does not panic, provided the dispatcher answers every request
    with an envelope. *)
Theorem EndBlock_after_PreBlock
    (h : ABCIMiddleware) (msg : proto_Message) (w : World) :
  (snd (PreBlock h msg) <> None ->
     PreBlock h msg = (h, Some ErrInvalidFinalizeBlockRequestType)
     /\ forall r, msg <> FinalizeBlockRequestMsg r)
  /\ (snd (PreBlock h msg) = None ->
      (exists r, msg = FinalizeBlockRequestMsg r
                 /\ PreBlock h msg = ({| req := r |}, None))
      /\ (req (fst (PreBlock h msg)) = None ->
          EndBlock (fst (PreBlock h msg)) w = (Panicked, w))
      /\ (req (fst (PreBlock h msg)) <> None ->
          dispatcher_delivers ->
          returns (fst (EndBlock (fst (PreBlock h msg)) w)) = true)).
Proof.
  destruct msg as [r|r|r|]; cbn [PreBlock fst snd]; split;
    try discriminate; try (intros H; now destruct H);
    try (intros _; split; [reflexivity | discriminate]).
  intros _. split; [now exists r|].
  cbn [req]. split.
  { intros ->. reflexivity. }
  intros Hr Hdel. destruct r as [r|]; [|now destruct Hr].
  unfold EndBlock. cbn [req].
  destruct (ExtractBlobsAndBlockFromRequest _ _ _ _) as [[blk blobs]|err];
    [|reflexivity].
  run_handler.
  pose proof (Hdel ProcessSidecars blobs (collaborators w)) as Hd1.
  destruct (dispatcher_Request ProcessSidecars blobs (collaborators w))
    as [[ferr [[d [e1|]]|]] c1]; cbn in Hd1; [| |congruence]; cbn -[app];
    [reflexivity|].
  pose proof (Hdel FinalizeBeaconBlock blk c1) as Hd2.
  destruct (dispatcher_Request FinalizeBeaconBlock blk c1)
    as [[ferr' [[d' e']|]] c2]; cbn in Hd2; [|congruence]; reflexivity.
Qed.

(** X8: a proposal whose block verification is answered with an error that
    is not fatal is accepted at once: the error is suppressed, the sidecars
    are neither read from the request nor verified. *)
Theorem ProcessProposal_non_fatal_block_error_skips_sidecars
    (abciReq : option ProcessProposalRequest) (w : World) (blk : BeaconBlockT)
    (c1 c2 : C) (ferr : option error) (m : Message BeaconBlockT) (e : error) :
  beaconBlockGossiper_Request abciReq (collaborators w) = (inl blk, c1) ->
  dispatcher_Request VerifyBeaconBlock blk c1 = ((ferr, Some m), c2) ->
  Error m = Some e ->
  IsFatal (Some e) = false ->
  ProcessProposal (ProcessProposalRequestMsg abciReq) w
  = (Returned (Some (ProcessProposalResponseMsg
                       {| Status := PROCESS_PROPOSAL_STATUS_ACCEPT |}), None),
     {| collaborators := c2;
        log := log w ++ [EvRequest VerifyBeaconBlock blk (ferr, Some m)] |}).
Proof.
  intros Hg Hd He Hf. unfold ProcessProposal. run_handler.
  rewrite Hg. cbn -[app createProcessProposalResponse]. rewrite Hd.
  destruct m as [d e0]. cbn in He. subst e0.
  cbn -[app createProcessProposalResponse].
  now rewrite createProcessProposalResponse_non_fatal.
Qed.

(** X9: a proposal whose block, or whose sidecars after a verified block,
    cannot be read from the request is accepted, whatever the reading error
    was, as long as [IsFatal] holds a wrapped error to be non-fatal; for the
    block, the dispatcher is not asked at all. *)
Theorem ProcessProposal_accepts_unreadable_proposal
    (abciReq : option ProcessProposalRequest) (w : World) :
  (forall e, IsFatal (Some (WrapNonFatal e)) = false) ->
  (forall err c1,
      beaconBlockGossiper_Request abciReq (collaborators w) = (inr err, c1) ->
      ProcessProposal (ProcessProposalRequestMsg abciReq) w
      = (Returned (Some (ProcessProposalResponseMsg
                           {| Status := PROCESS_PROPOSAL_STATUS_ACCEPT |}), None),
         {| collaborators := c1; log := log w |}))
  /\ (forall blk c1 ferr m c2 err c3,
      beaconBlockGossiper_Request abciReq (collaborators w) = (inl blk, c1) ->
      dispatcher_Request VerifyBeaconBlock blk c1 = ((ferr, Some m), c2) ->
      Error m = None ->
      blobGossiper_Request abciReq c2 = (inr err, c3) ->
      ProcessProposal (ProcessProposalRequestMsg abciReq) w
      = (Returned (Some (ProcessProposalResponseMsg
                           {| Status := PROCESS_PROPOSAL_STATUS_ACCEPT |}), None),
         {| collaborators := c3;
            log := log w ++ [EvRequest VerifyBeaconBlock blk (ferr, Some m)] |})).
Proof.
  intros Hwrap. unfold ProcessProposal. run_handler. split.
  - intros err c1 Hg. rewrite Hg. cbn -[app createProcessProposalResponse].
    now rewrite createProcessProposalResponse_non_fatal by apply Hwrap.
  - intros blk c1 ferr [d e0] c2 err c3 Hg Hd He Hs. cbn in He. subst e0.
    rewrite Hg. cbn -[app createProcessProposalResponse]. rewrite Hd.
    cbn -[app createProcessProposalResponse]. rewrite Hs.
    cbn -[app createProcessProposalResponse].
    now rewrite createProcessProposalResponse_non_fatal by apply Hwrap.
Qed.

(** X10: [PrepareProposal] returns no error exactly when the build request
    returns none, its reply carries none, and both gossipers publish without
    error, the block before the sidecars; the two results are then the bytes
    the gossipers handed back, and one request was sent to the dispatcher. *)
Theorem PrepareProposal_success
    (slotData : SlotDataT) (w w' : World) (bb sc : option bytes) :
  PrepareProposal slotData w = (Returned (bb, sc, None), w')
  <-> exists m c c' c'',
        dispatcher_Request BuildBeaconBlockAndSidecars slotData (collaborators w)
          = ((None, Some m), c)
        /\ Error m = None
        /\ beaconBlockGossiper_Publish (GetBeaconBlock (Data m)) c
           = ((bb, None), c')
        /\ blobGossiper_Publish (GetSidecars (Data m)) c' = ((sc, None), c'')
        /\ w' = {| collaborators := c'';
                   log := log w ++ [EvRequest BuildBeaconBlockAndSidecars slotData
                                      (None, Some m)] |}.
Proof.
  unfold PrepareProposal, handleBeaconBlockBundleResponse. run_handler. split.
  - destruct (dispatcher_Request BuildBeaconBlockAndSidecars slotData
                (collaborators w)) as [[[e|] [[d [e0|]]|]] c1] eqn:Hd;
      cbn -[app]; try discriminate.
    destruct (beaconBlockGossiper_Publish (GetBeaconBlock d) c1)
      as [[bbBz [e1|]] c2] eqn:Hp; cbn -[app]; try discriminate.
    destruct (blobGossiper_Publish (GetSidecars d) c2)
      as [[scBz [e2|]] c3] eqn:Hp'; cbn -[app]; try discriminate.
    intros H. injection H as <- <- <-.
    exists {| Data := d; Error := None |}, c1, c2, c3. cbn.
    now repeat split.
  - intros ([d e0] & c & c' & c'' & Hd & He & Hp & Hp' & ->).
    cbn in He, Hp, Hp'. subst e0. rewrite Hd. cbn -[app]. rewrite Hp.
    cbn -[app]. rewrite Hp'. reflexivity.
Qed.


End Handlers.

(** ** A concrete middleware

    Blocks and sidecars are their own bytes, the collaborators have no state
    of their own and answer from a fixed table.  The instance is what the
    closed statements below are evaluated on. *)

Section Scripted.

Let Block : Type := bytes.
Let Sidecars : Type := bytes.
Let Bundle : Type := (bytes * bytes)%type.

(** The answers of a scripted dispatcher, one per message identifier. *)
Definition Table : Type :=
  forall id : MessageID, Answer Block Sidecars Bundle nat id.

Definition scripted_Request (t : Table)
  : forall id : MessageID,
    payloadT nat nat Block Sidecars id -> unit ->
    Answer Block Sidecars Bundle nat id * unit :=
  fun id _ c => (t id, c).

(** Reads the block and the sidecars as the raw transactions at the two
    indices. *)
Definition scripted_Extract
    (r : FinalizeBlockRequest) (blkIndex scIndex : N) (forkVersion : Z)
  : (Block * Sidecars) + error :=
  match Txs r with
  | None => inr ErrNoBeaconBlockInRequest
  | Some txs =>
      match nth_error txs (N.to_nat blkIndex),
            nth_error txs (N.to_nat scIndex) with
      | Some (Some blk), Some (Some sc) => inl (blk, sc)
      | _, _ => inr ErrNilBeaconBlockInRequest
      end
  end.

(** Modelled from the spec: package [errors] is outside the embedded
    files.  The spec's two tiers: nil is no error, an error wrapped as
    non-fatal is non-fatal, any other error is fatal. *)
Definition scripted_IsFatal (err : option error) : bool :=
  match err with
  | None => false
  | Some (Marked fatal _) => fatal
  | Some _ => true
  end.

Definition scripted_WrapNonFatal (err : error) : error := Marked false err.

Definition scripted_World : Type :=
  World nat nat Block Sidecars Bundle nat unit.

Definition scripted_ProcessProposal
    (t : Table) (blk : Block + error) (sc : Sidecars + error)
    (msg : proto_Message)
  : scripted_World -> Outcome (option proto_Message * option error) * scripted_World :=
  ProcessProposal nat nat Block Sidecars Bundle nat unit
    (scripted_Request t) (fun _ c => (blk, c)) (fun _ c => (sc, c))
    scripted_IsFatal scripted_WrapNonFatal msg.

Definition scripted_EndBlock (t : Table) (h : ABCIMiddleware)
  : scripted_World -> Outcome (option (list nat) * option error) * scripted_World :=
  EndBlock nat nat Block Sidecars Bundle nat unit
    (scripted_Request t) scripted_Extract (fun _ => 4%Z) h.

Definition scripted_PrepareProposal
    (t : Table) (pubBlk pubSc : option bytes * option error) (slotData : nat)
  : scripted_World ->
    Outcome (option bytes * option bytes * option error) * scripted_World :=
  PrepareProposal nat nat Block Sidecars Bundle nat fst snd unit
    (scripted_Request t) (fun _ c => (pubBlk, c)) (fun _ c => (pubSc, c))
    slotData.

Definition fresh : scripted_World := {| collaborators := tt; log := [] |}.

Definition a_block : bytes := [Byte.x01; Byte.x02].
Definition some_sidecars : bytes := [Byte.x03].

(** Every request is answered and no reply carries an error. *)
Definition all_ok : Table :=
  fun id =>
    match id return Answer Block Sidecars Bundle nat id with
    | ProcessGenesisData => (None, Some {| Data := Some [7]; Error := None |})
    | BuildBeaconBlockAndSidecars =>
        (None, Some {| Data := (a_block, some_sidecars); Error := None |})
    | VerifyBeaconBlock => (None, Some {| Data := a_block; Error := None |})
    | VerifySidecars => (None, Some {| Data := some_sidecars; Error := None |})
    | ProcessSidecars => (None, Some {| Data := some_sidecars; Error := None |})
    | FinalizeBeaconBlock => (None, Some {| Data := Some [7]; Error := None |})
    end.

(** The sidecar verification answers with an unmarked, hence fatal, error. *)
Definition sidecars_invalid : Table :=
  fun id =>
    match id return Answer Block Sidecars Bundle nat id with
    | VerifySidecars =>
        (None, Some {| Data := some_sidecars;
                       Error := Some (Foreign "sidecar mismatch") |})
    | id' => all_ok id'
    end.

(** The [ProcessSidecars] request itself fails: [Request] returns an error
    and stores no reply. *)
Definition sidecars_request_lost : Table :=
  fun id =>
    match id return Answer Block Sidecars Bundle nat id with
    | ProcessSidecars => (Some (Foreign "request timed out"), None)
    | id' => all_ok id'
    end.

(** [Request] returns an error although a reply was stored. *)
Definition sidecars_request_error_with_reply : Table :=
  fun id =>
    match id return Answer Block Sidecars Bundle nat id with
    | ProcessSidecars =>
        (Some (Foreign "request timed out"),
         Some {| Data := some_sidecars; Error := None |})
    | id' => all_ok id'
    end.

Definition a_proposal : ProcessProposalRequest :=
  {| pp_Txs := Some [Some a_block; Some some_sidecars]; pp_Height := 5 |}.

Definition a_finalize_request : FinalizeBlockRequest :=
  {| Txs := Some [Some a_block; Some some_sidecars]; Height := 5 |}.

Definition an_empty_finalize_request : FinalizeBlockRequest :=
  {| Txs := Some []; Height := 5 |}.

End Scripted.

(** ** Closed statements on the concrete middleware *)

(** C1 as stated fails for a call whose message is not a
    [ProcessProposalRequest]: the call returns no response at all, hence no
    ACCEPT status, although no verification took place and no fatal
    verification error occurred. *)
Lemma ProcessProposal_refuses_other_messages :
  scripted_ProcessProposal all_ok (inl a_block) (inl some_sidecars)
    (FinalizeBlockRequestMsg (Some a_finalize_request)) fresh
  = (Returned (None, Some ErrInvalidProcessProposalRequestType), fresh)
  /\ fatal_verification_error nat nat bytes bytes (bytes * bytes) nat
       scripted_IsFatal
       (log _ _ _ _ _ _ _
          (snd (scripted_ProcessProposal all_ok (inl a_block) (inl some_sidecars)
                  (FinalizeBlockRequestMsg (Some a_finalize_request)) fresh)))
     = false.
Proof. split; reflexivity. Qed.

Lemma scripted_Request_delivers (t : Table) :
  (forall id, snd (t id) <> None) ->
  dispatcher_delivers nat nat bytes bytes (bytes * bytes) nat unit
    (scripted_Request t).
Proof. intros H id data c. exact (H id). Qed.

Lemma all_ok_delivers (id : MessageID) : snd (all_ok id) <> None.
Proof. destruct id; discriminate. Qed.

Lemma sidecars_invalid_delivers (id : MessageID) :
  snd (sidecars_invalid id) <> None.
Proof. destruct id; discriminate. Qed.

Lemma scripted_Request_succeeds (t : Table) :
  (forall id, exists m, t id = (None, Some m)) ->
  dispatcher_succeeds nat nat bytes bytes (bytes * bytes) nat unit
    (scripted_Request t).
Proof. intros H id data c. exact (H id). Qed.

Lemma sidecars_invalid_succeeds (id : MessageID) :
  exists m, sidecars_invalid id = (None, Some m).
Proof. destruct id; eexists; reflexivity. Qed.

(** The amended C1 at a proposal whose sidecars fail verification with a
    fatal error, and at the messages that are no proposal. *)
Lemma ProcessProposal_status_witness :
  (exists status err w' evs,
      scripted_ProcessProposal sidecars_invalid (inl a_block)
        (inl some_sidecars) (ProcessProposalRequestMsg (Some a_proposal)) fresh
      = (Returned (Some (ProcessProposalResponseMsg {| Status := status |}),
                   err), w')
      /\ log _ _ _ _ _ _ _ w' = log _ _ _ _ _ _ _ fresh ++ evs
      /\ verification_run nat nat bytes bytes (bytes * bytes) nat unit
           (scripted_Request sidecars_invalid)
           (fun _ c => (inl a_block, c)) (fun _ c => (inl some_sidecars, c))
           (Some a_proposal) (collaborators _ _ _ _ _ _ _ fresh) evs
           (collaborators _ _ _ _ _ _ _ w')
      /\ (status = PROCESS_PROPOSAL_STATUS_ACCEPT
          <-> fatal_verification_error _ _ _ _ _ _ scripted_IsFatal evs = false)
      /\ (fatal_verification_error _ _ _ _ _ _ scripted_IsFatal evs = false ->
          status = PROCESS_PROPOSAL_STATUS_ACCEPT /\ err = None)
      /\ (fatal_verification_error _ _ _ _ _ _ scripted_IsFatal evs = true ->
          status = PROCESS_PROPOSAL_STATUS_REJECT
          /\ exists e, err = Some e /\ scripted_IsFatal (Some e) = true
                       /\ In (Some e) (map (reply_error _ _ _ _ _ _) evs)))
  /\ (forall msg,
        (forall r, msg <> ProcessProposalRequestMsg r) ->
        scripted_ProcessProposal sidecars_invalid (inl a_block)
          (inl some_sidecars) msg fresh
        = (Returned (None, Some ErrInvalidProcessProposalRequestType), fresh)).
Proof.
  apply (ProcessProposal_status nat nat bytes bytes (bytes * bytes) nat unit
           (scripted_Request sidecars_invalid)
           (fun _ c => (inl a_block, c)) (fun _ c => (inl some_sidecars, c))
           scripted_IsFatal scripted_WrapNonFatal (Some a_proposal) fresh).
  - reflexivity.
  - intros e. reflexivity.
  - apply scripted_Request_succeeds, sidecars_invalid_succeeds.
Defined.

(** What that call returns: REJECT together with the fatal error, after both
    verification requests. *)
Example ProcessProposal_rejects_invalid_sidecars :
  scripted_ProcessProposal sidecars_invalid (inl a_block) (inl some_sidecars)
    (ProcessProposalRequestMsg (Some a_proposal)) fresh
  = (Returned
       (Some (ProcessProposalResponseMsg
                {| Status := PROCESS_PROPOSAL_STATUS_REJECT |}),
        Some (Foreign "sidecar mismatch")),
     {| collaborators := tt;
        log := [EvRequest _ _ _ _ _ _ VerifyBeaconBlock a_block
                  (sidecars_invalid VerifyBeaconBlock);
                EvRequest _ _ _ _ _ _ VerifySidecars some_sidecars
                  (sidecars_invalid VerifySidecars)] |}).
Proof. reflexivity. Qed.

(** C3 at that call: the sidecar verification was issued, so the block
    verification was issued first and answered without error. *)
Lemma ProcessProposal_verifies_block_before_sidecars_witness :
  exists evs,
    log _ _ _ _ _ _ _
      (snd (scripted_ProcessProposal sidecars_invalid (inl a_block)
              (inl some_sidecars) (ProcessProposalRequestMsg (Some a_proposal)) fresh))
    = evs
    /\ issued _ _ _ _ _ _ VerifySidecars evs = true
    /\ exists blk a sidecars a',
         evs = [EvRequest _ _ _ _ _ _ VerifyBeaconBlock blk a;
                EvRequest _ _ _ _ _ _ VerifySidecars sidecars a']
         /\ completed_without_error _ _ _ _ _ _
              (EvRequest _ _ _ _ _ _ VerifyBeaconBlock blk a) = true.
Proof.
  destruct (ProcessProposal_verifies_block_before_sidecars
              nat nat bytes bytes (bytes * bytes) nat unit
              (scripted_Request sidecars_invalid)
              (fun _ c => (inl a_block, c)) (fun _ c => (inl some_sidecars, c))
              scripted_IsFatal scripted_WrapNonFatal
              (ProcessProposalRequestMsg (Some a_proposal)) fresh)
    as (evs & Hlog & _ & Hissued & _).
  exists evs. cbn [log fresh app] in Hlog.
  split; [exact Hlog|].
  assert (Hi : issued _ _ _ _ _ _ VerifySidecars evs = true)
    by (rewrite <- Hlog; reflexivity).
  split; [exact Hi | exact (Hissued Hi)].
Defined.

(** A block that cannot be read from the request is accepted: the gossiper's
    error is wrapped as non-fatal, whatever it was. *)
Example ProcessProposal_accepts_unreadable_block :
  scripted_ProcessProposal all_ok (inr (Foreign "malformed SSZ"))
    (inl some_sidecars) (ProcessProposalRequestMsg (Some a_proposal)) fresh
  = (Returned
       (Some (ProcessProposalResponseMsg
                {| Status := PROCESS_PROPOSAL_STATUS_ACCEPT |}), None),
     fresh).
Proof. reflexivity. Qed.

(** C2, the failing input: when the [ProcessSidecars] request itself fails,
    [EndBlock] drops the error that [dispatcher.Request] returned.  With the
    reply variable left nil the call panics on [sidecarsResp.Error()]; with
    a reply stored it goes on, finalizes the block and returns no error.  In
    neither case is the request's error returned. *)
Lemma EndBlock_drops_request_error :
  scripted_EndBlock sidecars_request_lost {| req := Some a_finalize_request |} fresh
  = (Panicked,
     {| collaborators := tt;
        log := [EvRequest _ _ _ _ _ _ ProcessSidecars some_sidecars
                  (Some (Foreign "request timed out"), None)] |})
  /\ scripted_EndBlock sidecars_request_error_with_reply
       {| req := Some a_finalize_request |} fresh
     = (Returned (Some [7], None),
        {| collaborators := tt;
           log := [EvRequest _ _ _ _ _ _ ProcessSidecars some_sidecars
                     (Some (Foreign "request timed out"),
                      Some {| Data := some_sidecars; Error := None |});
                   EvRequest _ _ _ _ _ _ FinalizeBeaconBlock a_block
                     (all_ok FinalizeBeaconBlock)] |}).
Proof. split; reflexivity. Qed.

(** C9 at a request without transactions. *)
Lemma EndBlock_without_block_witness :
  scripted_EndBlock all_ok {| req := Some an_empty_finalize_request |} fresh
  = (Returned (None, None), fresh).
Proof.
  apply (EndBlock_without_block nat nat bytes bytes (bytes * bytes) nat unit
           (scripted_Request all_ok) scripted_Extract (fun _ => 4%Z)
           {| req := Some an_empty_finalize_request |} fresh
           an_empty_finalize_request ErrNilBeaconBlockInRequest).
  - reflexivity.
  - reflexivity.
Defined.

(** C5 at a proposal whose block was published but whose sidecars were not,
    the gossiper handing back bytes together with its error: neither
    component is returned. *)
Lemma PrepareProposal_failure_is_empty_witness :
  scripted_PrepareProposal all_ok
    (Some [Byte.x0a], None) (Some [Byte.x0b], Some (Foreign "gossip failed"))
    9 fresh
  = (Returned (None, None, Some (Foreign "gossip failed")),
     {| collaborators := tt;
        log := [EvRequest _ _ _ _ _ _ BuildBeaconBlockAndSidecars 9
                  (all_ok BuildBeaconBlockAndSidecars)] |})
  /\ (forall bb sc e w',
         scripted_PrepareProposal all_ok
           (Some [Byte.x0a], None)
           (Some [Byte.x0b], Some (Foreign "gossip failed")) 9 fresh
         = (Returned (bb, sc, Some e), w') ->
         bb = None /\ sc = None).
Proof.
  split; [reflexivity|].
  exact (proj1 (PrepareProposal_failure_is_empty
                  nat nat bytes bytes (bytes * bytes) nat fst snd unit
                  (scripted_Request all_ok)
                  (fun _ c => ((Some [Byte.x0a], None), c))
                  (fun _ c => ((Some [Byte.x0b], Some (Foreign "gossip failed")), c))
                  9 fresh)).
Defined.

(** ** The error of a request itself *)

Section DroppedErrors.

Variables GenesisT SlotDataT BeaconBlockT BlobSidecarsT BeaconBlockBundleT
          ValidatorUpdate C : Type.
Variable dispatcher_Request :
  forall id : MessageID,
    payloadT GenesisT SlotDataT BeaconBlockT BlobSidecarsT id -> C ->
    Answer BeaconBlockT BlobSidecarsT BeaconBlockBundleT ValidatorUpdate id * C.
Variable beaconBlockGossiper_Request :
  option ProcessProposalRequest -> C -> (BeaconBlockT + error) * C.
Variable blobGossiper_Request :
  option ProcessProposalRequest -> C -> (BlobSidecarsT + error) * C.
Variable ExtractBlobsAndBlockFromRequest :
  FinalizeBlockRequest -> N -> N -> Z -> (BeaconBlockT * BlobSidecarsT) + error.
Variable ActiveForkVersionForSlot : Z -> Z.
Variable IsFatal : option error -> bool.
Variable WrapNonFatal : error -> error.

(** The same dispatcher, except that no request ever returns an error. *)
Definition without_request_errors
  : forall id : MessageID,
      payloadT GenesisT SlotDataT BeaconBlockT BlobSidecarsT id -> C ->
      Answer BeaconBlockT BlobSidecarsT BeaconBlockBundleT ValidatorUpdate id * C :=
  fun id data c =>
    let '((_, reply), c') := dispatcher_Request id data c in
    ((None, reply), c').

(** X15: [EndBlock] and [ProcessProposal] never look at the error a
    dispatcher request returns: against a dispatcher that stores the same
    replies but never returns an error, both return the same result (or
    panic alike) and leave the collaborators in the same state. *)
Theorem request_errors_are_ignored
    (h : ABCIMiddleware) (msg : proto_Message)
    (w : World GenesisT SlotDataT BeaconBlockT BlobSidecarsT BeaconBlockBundleT
           ValidatorUpdate C) :
  let end_block d :=
    EndBlock GenesisT SlotDataT BeaconBlockT BlobSidecarsT BeaconBlockBundleT
      ValidatorUpdate C d ExtractBlobsAndBlockFromRequest
      ActiveForkVersionForSlot h w in
  let process_proposal d :=
    ProcessProposal GenesisT SlotDataT BeaconBlockT BlobSidecarsT
      BeaconBlockBundleT ValidatorUpdate C d beaconBlockGossiper_Request
      blobGossiper_Request IsFatal WrapNonFatal msg w in
  (fst (end_block dispatcher_Request) = fst (end_block without_request_errors)
   /\ collaborators _ _ _ _ _ _ _ (snd (end_block dispatcher_Request))
      = collaborators _ _ _ _ _ _ _ (snd (end_block without_request_errors)))
  /\ (fst (process_proposal dispatcher_Request)
      = fst (process_proposal without_request_errors)
      /\ collaborators _ _ _ _ _ _ _ (snd (process_proposal dispatcher_Request))
         = collaborators _ _ _ _ _ _ _
             (snd (process_proposal without_request_errors))).
Proof.
  cbv zeta. split.
  - unfold EndBlock.
    destruct (req h) as [r|]; [|split; reflexivity].
    destruct (ExtractBlobsAndBlockFromRequest _ _ _ _) as [[blk blobs]|err];
      [|split; reflexivity].
    unfold bind, Request, ret, panic, Error_of, Data_of, without_request_errors.
    cbn [fst snd].
    destruct (dispatcher_Request ProcessSidecars blobs _)
      as [[ferr [[d [e|]]|]] c1]; cbn; try (split; reflexivity).
    destruct (dispatcher_Request FinalizeBeaconBlock blk c1)
      as [[ferr' [[d' e']|]] c2]; cbn; split; reflexivity.
  - unfold ProcessProposal.
    destruct msg as [abciReq| | |]; try (split; reflexivity).
    unfold bind, Request, call, ret, panic, Error_of, Data_of,
      without_request_errors.
    cbn [fst snd].
    destruct (beaconBlockGossiper_Request abciReq _) as [[blk|err] c1];
      cbn -[createProcessProposalResponse]; [|split; reflexivity].
    destruct (dispatcher_Request VerifyBeaconBlock blk c1)
      as [[ferr [[d [e|]]|]] c2]; cbn -[createProcessProposalResponse];
      try (split; reflexivity).
    destruct (blobGossiper_Request abciReq c2) as [[sidecars|err] c3];
      cbn -[createProcessProposalResponse]; [|split; reflexivity].
    destruct (dispatcher_Request VerifySidecars sidecars c3)
      as [[ferr' [[d' [e'|]]|]] c4]; cbn -[createProcessProposalResponse];
      split; reflexivity.
Qed.

End DroppedErrors.

(** ** Closed statements for the further properties *)

(** The finalization answers with an error, next to validator updates. *)
Definition finalize_fails : Table :=
  fun id =>
    match id return Answer bytes bytes (bytes * bytes) nat id with
    | FinalizeBeaconBlock =>
        (None, Some {| Data := Some [7]; Error := Some (Foreign "state root") |})
    | id' => all_ok id'
    end.

(** The block verification answers with an error marked as non-fatal. *)
Definition block_check_transient : Table :=
  fun id =>
    match id return Answer bytes bytes (bytes * bytes) nat id with
    | VerifyBeaconBlock =>
        (None, Some {| Data := a_block;
                       Error := Some (Marked false (Foreign "timeout")) |})
    | id' => all_ok id'
    end.

Lemma finalize_fails_delivers (id : MessageID) : snd (finalize_fails id) <> None.
Proof. destruct id; discriminate. Qed.

(** Genesis data is one byte, decoded as a number. *)
Definition one_byte_genesis (bz : bytes) : nat + error :=
  match bz with
  | [b] => inl (Byte.to_nat b)
  | _ => inr (Foreign "bad genesis")
  end.

Definition scripted_InitGenesis (t : Table) (bz : bytes)
  : scripted_World -> Outcome (option (list nat) * option error) * scripted_World :=
  InitGenesis nat nat bytes bytes (bytes * bytes) nat unit
    (scripted_Request t) one_byte_genesis bz.

(** X4 at a one-byte genesis. *)
Lemma InitGenesis_success_and_request_error_witness :
  scripted_InitGenesis all_ok [Byte.x05] fresh
  = (Returned (Some [7], None),
     {| collaborators := tt;
        log := [EvRequest _ _ _ _ _ _ ProcessGenesisData 5
                  (all_ok ProcessGenesisData)] |})
  /\ scripted_InitGenesis all_ok [] fresh
     = (Returned (None, Some (Foreign "bad genesis")), fresh).
Proof.
  destruct (InitGenesis_success_and_request_error
              nat nat bytes bytes (bytes * bytes) nat unit
              (scripted_Request all_ok) one_byte_genesis [Byte.x05] fresh)
    as (Hok & _ & _).
  destruct (InitGenesis_success_and_request_error
              nat nat bytes bytes (bytes * bytes) nat unit
              (scripted_Request all_ok) one_byte_genesis [] fresh)
    as (_ & _ & Hbad).
  split.
  - apply Hok.
    exists 5%nat, {| Data := Some [7]; Error := None |}, tt.
    repeat split.
  - apply Hbad. reflexivity.
Defined.

(** X5 on a call whose finalization fails: the block was finalized after the
    sidecars had been persisted without error. *)
Lemma EndBlock_persists_sidecars_before_finalizing_witness :
  exists evs,
    log _ _ _ _ _ _ _
      (snd (scripted_EndBlock finalize_fails
              {| req := Some a_finalize_request |} fresh)) = evs
    /\ issued _ _ _ _ _ _ FinalizeBeaconBlock evs = true
    /\ exists blobs a blk a',
         evs = [EvRequest _ _ _ _ _ _ ProcessSidecars blobs a;
                EvRequest _ _ _ _ _ _ FinalizeBeaconBlock blk a']
         /\ completed_without_error _ _ _ _ _ _
              (EvRequest _ _ _ _ _ _ ProcessSidecars blobs a) = true.
Proof.
  destruct (EndBlock_persists_sidecars_before_finalizing
              nat nat bytes bytes (bytes * bytes) nat unit
              (scripted_Request finalize_fails) scripted_Extract (fun _ => 4%Z)
              {| req := Some a_finalize_request |} fresh)
    as (evs & Hlog & _ & Hissued & _).
  exists evs. cbn [log fresh app] in Hlog.
  split; [exact Hlog|].
  assert (Hi : issued _ _ _ _ _ _ FinalizeBeaconBlock evs = true)
    by (rewrite <- Hlog; reflexivity).
  split; [exact Hi | exact (Hissued Hi)].
Defined.

(** X6 on the same call. *)
Lemma EndBlock_returns_reply_errors_witness :
  exists updates err w' evs,
    scripted_EndBlock finalize_fails {| req := Some a_finalize_request |} fresh
    = (Returned (updates, err), w')
    /\ log _ _ _ _ _ _ _ w' = log _ _ _ _ _ _ _ fresh ++ evs
    /\ (forall e, err = Some e
                  <-> exists ev, In ev evs
                                 /\ reply_error _ _ _ _ _ _ ev = Some e)
    /\ (err = None -> issued _ _ _ _ _ _ FinalizeBeaconBlock evs = true).
Proof.
  apply (EndBlock_returns_reply_errors
           nat nat bytes bytes (bytes * bytes) nat unit
           (scripted_Request finalize_fails) scripted_Extract (fun _ => 4%Z)
           {| req := Some a_finalize_request |} fresh
           a_finalize_request a_block some_sidecars).
  - reflexivity.
  - reflexivity.
  - apply scripted_Request_delivers, finalize_fails_delivers.
Defined.

(** What that call returns: the error of the finalization reply, together
    with the validator updates the reply carried. *)
Example EndBlock_returns_updates_with_error :
  fst (scripted_EndBlock finalize_fails {| req := Some a_finalize_request |} fresh)
  = Returned (Some [7], Some (Foreign "state root")).
Proof. reflexivity. Qed.

(** X7 after a [PreBlock] that stored a request, after one that refused a
    proposal, and after one that stored a nil pointer. *)
Lemma EndBlock_after_PreBlock_witness :
  returns
    (fst (scripted_EndBlock all_ok
            (fst (PreBlock {| req := None |}
                    (FinalizeBlockRequestMsg (Some a_finalize_request)))) fresh))
  = true
  /\ PreBlock {| req := Some a_finalize_request |}
       (ProcessProposalRequestMsg (Some a_proposal))
     = ({| req := Some a_finalize_request |},
        Some ErrInvalidFinalizeBlockRequestType)
  /\ scripted_EndBlock all_ok
       (fst (PreBlock {| req := Some a_finalize_request |}
               (FinalizeBlockRequestMsg None))) fresh
     = (Panicked, fresh).
Proof.
  split; [|split].
  - apply (EndBlock_after_PreBlock
             nat nat bytes bytes (bytes * bytes) nat unit
             (scripted_Request all_ok) scripted_Extract (fun _ => 4%Z)
             {| req := None |}
             (FinalizeBlockRequestMsg (Some a_finalize_request)) fresh).
    + reflexivity.
    + discriminate.
    + apply scripted_Request_delivers, all_ok_delivers.
  - apply (EndBlock_after_PreBlock
             nat nat bytes bytes (bytes * bytes) nat unit
             (scripted_Request all_ok) scripted_Extract (fun _ => 4%Z)
             {| req := Some a_finalize_request |}
             (ProcessProposalRequestMsg (Some a_proposal)) fresh).
    discriminate.
  - apply (EndBlock_after_PreBlock
             nat nat bytes bytes (bytes * bytes) nat unit
             (scripted_Request all_ok) scripted_Extract (fun _ => 4%Z)
             {| req := Some a_finalize_request |}
             (FinalizeBlockRequestMsg None) fresh).
    + reflexivity.
    + reflexivity.
Defined.

(** X8 at a block check that times out. *)
Lemma ProcessProposal_non_fatal_block_error_skips_sidecars_witness :
  scripted_ProcessProposal block_check_transient (inl a_block) (inl some_sidecars)
    (ProcessProposalRequestMsg (Some a_proposal)) fresh
  = (Returned (Some (ProcessProposalResponseMsg
                       {| Status := PROCESS_PROPOSAL_STATUS_ACCEPT |}), None),
     {| collaborators := tt;
        log := [EvRequest _ _ _ _ _ _ VerifyBeaconBlock a_block
                  (block_check_transient VerifyBeaconBlock)] |}).
Proof.
  apply (ProcessProposal_non_fatal_block_error_skips_sidecars
           nat nat bytes bytes (bytes * bytes) nat unit
           (scripted_Request block_check_transient)
           (fun _ c => (inl a_block, c)) (fun _ c => (inl some_sidecars, c))
           scripted_IsFatal scripted_WrapNonFatal (Some a_proposal) fresh
           a_block tt tt None
           {| Data := a_block; Error := Some (Marked false (Foreign "timeout")) |}
           (Marked false (Foreign "timeout")));
    reflexivity.
Defined.

(** X9 at sidecars that cannot be read after a verified block. *)
Lemma ProcessProposal_accepts_unreadable_proposal_witness :
  scripted_ProcessProposal all_ok (inl a_block) (inr (Foreign "malformed SSZ"))
    (ProcessProposalRequestMsg (Some a_proposal)) fresh
  = (Returned (Some (ProcessProposalResponseMsg
                       {| Status := PROCESS_PROPOSAL_STATUS_ACCEPT |}), None),
     {| collaborators := tt;
        log := [EvRequest _ _ _ _ _ _ VerifyBeaconBlock a_block
                  (all_ok VerifyBeaconBlock)] |}).
Proof.
  refine (proj2 (ProcessProposal_accepts_unreadable_proposal
           nat nat bytes bytes (bytes * bytes) nat unit
           (scripted_Request all_ok)
           (fun _ c => (inl a_block, c))
           (fun _ c => (inr (Foreign "malformed SSZ"), c))
           scripted_IsFatal scripted_WrapNonFatal (Some a_proposal) fresh _)
           a_block tt None {| Data := a_block; Error := None |} tt
           (Foreign "malformed SSZ") tt _ _ _ _);
    reflexivity.
Defined.

(** X10 at a proposal that is built and published. *)
Lemma PrepareProposal_success_witness :
  scripted_PrepareProposal all_ok (Some [Byte.x0a], None) (Some [Byte.x0b], None)
    9 fresh
  = (Returned (Some [Byte.x0a], Some [Byte.x0b], None),
     {| collaborators := tt;
        log := [EvRequest _ _ _ _ _ _ BuildBeaconBlockAndSidecars 9
                  (all_ok BuildBeaconBlockAndSidecars)] |}).
Proof.
  apply (PrepareProposal_success
           nat nat bytes bytes (bytes * bytes) nat fst snd unit
           (scripted_Request all_ok)
           (fun _ c => ((Some [Byte.x0a], None), c))
           (fun _ c => ((Some [Byte.x0b], None), c))
           9 fresh).
  exists {| Data := (a_block, some_sidecars); Error := None |}, tt, tt, tt.
  repeat split.
Defined.

(** X15 on the concrete middleware: with or without the error of the
    [ProcessSidecars] request, the block is finalized and no error is
    returned. *)
Lemma request_errors_are_ignored_witness :
  fst (scripted_EndBlock sidecars_request_error_with_reply
         {| req := Some a_finalize_request |} fresh)
  = fst (EndBlock nat nat bytes bytes (bytes * bytes) nat unit
           (without_request_errors nat nat bytes bytes (bytes * bytes) nat unit
              (scripted_Request sidecars_request_error_with_reply))
           scripted_Extract (fun _ => 4%Z)
           {| req := Some a_finalize_request |} fresh).
Proof.
  exact (proj1 (proj1 (request_errors_are_ignored
           nat nat bytes bytes (bytes * bytes) nat unit
           (scripted_Request sidecars_request_error_with_reply)
           (fun _ c => (inl a_block, c)) (fun _ c => (inl some_sidecars, c))
           scripted_Extract (fun _ => 4%Z)
           scripted_IsFatal scripted_WrapNonFatal
           {| req := Some a_finalize_request |}
           (ProcessProposalRequestMsg (Some a_proposal)) fresh))).
Defined.


End Middleware.

(* ------------------------------------------------------------------------- *)
(** * Package validator: block building                                       *)
(* ------------------------------------------------------------------------- *)

Module Validator.

Local Open Scope Z_scope.

(** [math.Slot] is a [uint64]. *)
Definition uint64_modulus : Z := 2 ^ 64.
Definition MaxUint64 : Z := uint64_modulus - 1.
Definition is_uint64 (z : Z) : Prop := 0 <= z < uint64_modulus.

(** Subtraction on [uint64] wraps around. *)
Definition sub64 (a b : Z) : Z := (a - b) mod uint64_modulus.

Section Service.

(** The beacon state is a mutable object behind [BeaconStateT]; a call that
    may change it returns the state it leaves. *)
Variable BeaconStateT : Type.
Variable GetSlot : BeaconStateT -> Z + error.
(** [s.stateProcessor.ProcessSlot(st)]; the validator updates it returns are
    discarded by the caller. *)
Variable ProcessSlot : BeaconStateT -> BeaconStateT * option error.

(** prepareStateForBuilding ensures that the state is at the requested slot
    before building a block. *)
Definition prepareStateForBuilding (st : BeaconStateT) (requestedSlot : Z)
  : BeaconStateT * option error :=
  match GetSlot st with
  | inr err => (st, Some err)
  | inl stateSlot =>
      let slotDifference := sub64 requestedSlot stateSlot in
      if slotDifference =? 1 then
        (* If our BeaconState is not up to date, we need to process a slot
           to get it up to date. *)
        let '(st, err) := ProcessSlot st in
        match err with
        | Some err => (st, Some err)
        | None =>
            (* Request the slot again, it should've been incremented by 1. *)
            match GetSlot st with
            | inr err => (st, Some err)
            | inl stateSlot =>
                if negb (requestedSlot =? stateSlot) then
                  (st, Some (Newf
                    "requested slot could not be processed, requested: %d, state: %d"
                    [requestedSlot; stateSlot]))
                else (st, None)
            end
        end
      else if slotDifference >? 1 then
        (st, Some (Newf
          "requested slot is too far ahead, requested: %d, state: %d"
          [requestedSlot; stateSlot]))
      else if slotDifference <? 1 then
        (st, Some (Newf
          "requested slot is in the past, requested: %d, state: %d"
          [requestedSlot; stateSlot]))
      else (st, None)
  end.

(** ** RetrievePayload *)

Variables BeaconBlock ExecutionPayloadHeader Root ExecutionHash
          BuiltExecutionPayloadEnv : Type.
Variable GetLatestExecutionPayloadHeader :
  BeaconStateT -> ExecutionPayloadHeader + error.
Variable GetBlockHash : ExecutionPayloadHeader -> ExecutionHash.
Variable blk_GetSlot : BeaconBlock -> Z.
Variable GetParentBlockRoot : BeaconBlock -> Root.

(** The local builder, with its own state [B].  It hands back an envelope,
    which is nil when it holds none, and an error. *)
Variable B : Type.
Variable RetrieveOrBuildPayload :
  BeaconStateT -> Z -> Root -> ExecutionHash -> B ->
  (option BuiltExecutionPayloadEnv * option error) * B.

Definition RetrievePayload (st : BeaconStateT) (blk : BeaconBlock) (b : B)
  : (option BuiltExecutionPayloadEnv * option error) * B :=
  (* The latest execution payload header, will be from the previous block
     during the block building phase. *)
  match GetLatestExecutionPayloadHeader st with
  | inr err => ((None, Some err), b)
  | inl parentExecutionPayload =>
      (* Get the payload for the block. *)
      let '((envelope, err), b) :=
        RetrieveOrBuildPayload st (blk_GetSlot blk) (GetParentBlockRoot blk)
          (GetBlockHash parentExecutionPayload) b in
      match err, envelope with
      | Some err, _ => ((None, Some err), b)
      | None, None => ((None, Some ErrNilPayload), b)
      | None, Some _ => ((envelope, None), b)
      end
  end.

(** ** Properties of [prepareStateForBuilding] *)

Lemma sub64_range (a b : Z) : 0 <= sub64 a b < uint64_modulus.
Proof. unfold sub64, uint64_modulus. apply Z.mod_pos_bound. lia. Qed.

(** The difference wraps to 1 exactly for the next slot and for slot 0 after
    the last representable slot. *)
Lemma sub64_one (a b : Z) :
  is_uint64 a -> is_uint64 b ->
  sub64 a b = 1 <-> a - b = 1 \/ (a = 0 /\ b = MaxUint64).
Proof.
  unfold is_uint64, sub64, MaxUint64, uint64_modulus. intros Ha Hb.
  destruct (Z_le_gt_dec b a) as [Hle|Hgt].
  - rewrite Z.mod_small by lia. lia.
  - replace (a - b) with ((a - b + 2 ^ 64) + (-1) * 2 ^ 64) by ring.
    rewrite Z.mod_add by lia. rewrite Z.mod_small by lia. lia.
Qed.

Lemma prepareStateForBuilding_GetSlot_error
    (st : BeaconStateT) (requestedSlot : Z) (err : error) :
  GetSlot st = inr err ->
  prepareStateForBuilding st requestedSlot = (st, Some err).
Proof. intros H. unfold prepareStateForBuilding. now rewrite H. Qed.

(** The result when the difference is 1. *)
Lemma prepareStateForBuilding_next
    (st : BeaconStateT) (requestedSlot stateSlot : Z) :
  GetSlot st = inl stateSlot ->
  sub64 requestedSlot stateSlot = 1 ->
  prepareStateForBuilding st requestedSlot
  = let st' := fst (ProcessSlot st) in
    match snd (ProcessSlot st) with
    | Some err => (st', Some err)
    | None =>
        match GetSlot st' with
        | inr err => (st', Some err)
        | inl stateSlot' =>
            if requestedSlot =? stateSlot' then (st', None)
            else (st', Some (Newf
                   "requested slot could not be processed, requested: %d, state: %d"
                   [requestedSlot; stateSlot']))
        end
    end.
Proof.
  intros Hs Hd. unfold prepareStateForBuilding. rewrite Hs, Hd. cbn.
  destruct (ProcessSlot st) as [st' [err|]]; cbn; [reflexivity|].
  destruct (GetSlot st') as [s'|err]; [|reflexivity].
  now destruct (requestedSlot =? s').
Qed.

(** The result when the difference is not 1: an error, and the state is left
    alone. *)
Lemma prepareStateForBuilding_other
    (st : BeaconStateT) (requestedSlot stateSlot : Z) :
  GetSlot st = inl stateSlot ->
  sub64 requestedSlot stateSlot <> 1 ->
  exists err, prepareStateForBuilding st requestedSlot = (st, Some err).
Proof.
  intros Hs Hd. unfold prepareStateForBuilding. rewrite Hs.
  destruct (Z.eqb_spec (sub64 requestedSlot stateSlot) 1) as [|_]; [easy|].
  destruct (sub64 requestedSlot stateSlot >? 1) eqn:Hgt; [eauto|].
  destruct (sub64 requestedSlot stateSlot <? 1) eqn:Hlt; [eauto|].
  exfalso. rewrite Z.gtb_ltb in Hgt.
  apply Z.ltb_ge in Hgt, Hlt. lia.
Qed.

(** C4 (amended): [prepareStateForBuilding] succeeds only when the [uint64]
    difference [requested_slot - state.slot] is 1, in which case the state
    was advanced by one [ProcessSlot] call and its slot equals the requested
    slot afterwards; for every other requested slot it returns an error and
    leaves the state alone.  The difference is computed modulo [2^64]: it is
    1 for the slot after the state's slot and for requested slot 0 when the
    state is at the last slot [2^64 - 1]; every other requested slot at or
    before the state's slot, and every slot more than one ahead, is refused. *)
Theorem prepareStateForBuilding_spec
    (st : BeaconStateT) (requestedSlot stateSlot : Z) :
  GetSlot st = inl stateSlot ->
  is_uint64 requestedSlot -> is_uint64 stateSlot ->
  let st' := fst (prepareStateForBuilding st requestedSlot) in
  let err := snd (prepareStateForBuilding st requestedSlot) in
  (err = None <->
     sub64 requestedSlot stateSlot = 1
     /\ snd (ProcessSlot st) = None
     /\ GetSlot (fst (ProcessSlot st)) = inl requestedSlot)
  /\ (err = None -> st' = fst (ProcessSlot st) /\ GetSlot st' = inl requestedSlot)
  /\ (sub64 requestedSlot stateSlot <> 1 -> err <> None /\ st' = st)
  /\ (requestedSlot - stateSlot > 1 -> err <> None)
  /\ (requestedSlot <= stateSlot ->
      ~ (requestedSlot = 0 /\ stateSlot = MaxUint64) -> err <> None).
Proof.
  intros Hs Hr Hst st' err.
  assert (Hother : sub64 requestedSlot stateSlot <> 1 -> err <> None /\ st' = st).
  { intros Hd. subst st' err.
    destruct (prepareStateForBuilding_other st requestedSlot stateSlot Hs Hd)
      as [e ->]. now split. }
  assert (Hiff : err = None <->
     sub64 requestedSlot stateSlot = 1
     /\ snd (ProcessSlot st) = None
     /\ GetSlot (fst (ProcessSlot st)) = inl requestedSlot).
  { destruct (Z.eq_dec (sub64 requestedSlot stateSlot) 1) as [Hd|Hd].
    - subst st' err.
      rewrite (prepareStateForBuilding_next st requestedSlot stateSlot Hs Hd).
      cbn zeta.
      destruct (snd (ProcessSlot st)) as [e|]; cbn.
      { split; [discriminate | intros (_ & H & _); discriminate]. }
      destruct (GetSlot (fst (ProcessSlot st))) as [s'|e]; cbn.
      2:{ split; [discriminate | intros (_ & _ & H); discriminate]. }
      destruct (Z.eqb_spec requestedSlot s') as [->|Hne]; cbn.
      + split; auto.
      + split; [discriminate|]. intros (_ & _ & H). congruence.
    - split; [intros H; now destruct (Hother Hd) | intros (H & _); easy]. }
  split; [exact Hiff|]. split; [|split; [exact Hother|split]].
  - intros He. apply Hiff in He as (Hd & Hp & Hg). subst st' err.
    rewrite (prepareStateForBuilding_next st requestedSlot stateSlot Hs Hd).
    cbn zeta. rewrite Hp, Hg, Z.eqb_refl. cbn. now split.
  - intros Hgt. apply Hother. rewrite sub64_one by assumption.
    unfold MaxUint64, is_uint64 in *. lia.
  - intros Hle Hw. apply Hother. rewrite sub64_one by assumption. lia.
Qed.

(** ** Properties of [RetrievePayload] *)

(** C6 (amended): on every call to [RetrievePayload], an error of the state's
    header lookup or of [RetrieveOrBuildPayload] is returned as it is, with a
    nil envelope; if [RetrieveOrBuildPayload] returns a nil envelope without
    error, [RetrievePayload] fails with [ErrNilPayload]; and a non-nil
    envelope is returned, without error, exactly when [RetrieveOrBuildPayload]
    returned that envelope without error. *)
Theorem RetrievePayload_spec (st : BeaconStateT) (blk : BeaconBlock) (b : B) :
  let result := fst (RetrievePayload st blk b) in
  (forall err,
      GetLatestExecutionPayloadHeader st = inr err ->
      RetrievePayload st blk b = ((None, Some err), b))
  /\ (forall parent,
      GetLatestExecutionPayloadHeader st = inl parent ->
      let built :=
        fst (RetrieveOrBuildPayload st (blk_GetSlot blk) (GetParentBlockRoot blk)
               (GetBlockHash parent) b) in
      (built = (None, None) -> result = (None, Some ErrNilPayload))
      /\ (forall envelope err,
             built = (envelope, Some err) -> result = (None, Some err))
      /\ (forall envelope,
             built = (Some envelope, None) -> result = (Some envelope, None))
      /\ (forall envelope,
             fst result = Some envelope ->
             built = (Some envelope, None) /\ snd result = None)).
Proof.
  intros result. subst result. unfold RetrievePayload. split.
  - intros err ->. reflexivity.
  - intros parent ->. cbn zeta.
    destruct (RetrieveOrBuildPayload _ _ _ _ _) as [[[env|] [e|]] b'];
      cbn; repeat split; try discriminate; try congruence.
Qed.

End Service.

(** ** A concrete chain state

    The state is its slot and, when one is stored, the block hash of its
    latest execution payload header. *)

Record chain_state : Type := {
  cs_slot : Z;
  cs_latest_block_hash : option nat
}.

Definition chain_GetSlot (st : chain_state) : Z + error := inl (cs_slot st).

(** Modelled from the spec: the state processor is outside the embedded
    files.  Its one-slot transition advances the slot, a [uint64], by one. *)
Definition chain_ProcessSlot (st : chain_state) : chain_state * option error :=
  ({| cs_slot := (cs_slot st + 1) mod uint64_modulus;
      cs_latest_block_hash := cs_latest_block_hash st |}, None).

Definition chain_prepareStateForBuilding
  : chain_state -> Z -> chain_state * option error :=
  prepareStateForBuilding chain_state chain_GetSlot chain_ProcessSlot.

Definition chain_header (st : chain_state) : nat + error :=
  match cs_latest_block_hash st with
  | Some h => inl h
  | None => inr (Foreign "no execution payload header")
  end.

(** A builder that answers every request with the same pair. *)
Definition fixed_builder (answer : option nat * option error)
  : chain_state -> Z -> nat -> nat -> unit -> (option nat * option error) * unit :=
  fun _ _ _ _ b => (answer, b).

Definition chain_RetrievePayload (answer : option nat * option error)
    (st : chain_state) (blk : Z * nat)
  : (option nat * option error) * unit :=
  RetrievePayload chain_state (Z * nat) nat nat nat nat
    chain_header (fun h => h) fst snd unit (fixed_builder answer) st blk tt.

Definition at_slot (s : Z) : chain_state :=
  {| cs_slot := s; cs_latest_block_hash := Some 11%nat |}.

(** ** Closed statements on the concrete chain state *)

(** C4 as stated fails at the wrap-around: the requested slot 0 is before the
    state's slot [2^64 - 1], yet the [uint64] difference is 1, the state is
    advanced (its slot wraps to 0) and no error is returned. *)
Lemma prepareStateForBuilding_wraps_around :
  0 <= MaxUint64
  /\ chain_GetSlot (at_slot MaxUint64) = inl MaxUint64
  /\ sub64 0 MaxUint64 = 1
  /\ chain_prepareStateForBuilding (at_slot MaxUint64) 0 = (at_slot 0, None).
Proof. repeat split; vm_compute; congruence. Qed.

(** The amended C4 at state slot 5: slot 6 is prepared, slots 5 and 7 are
    refused. *)
Lemma prepareStateForBuilding_spec_witness :
  (snd (chain_prepareStateForBuilding (at_slot 5) 6) = None
   /\ chain_GetSlot (fst (chain_prepareStateForBuilding (at_slot 5) 6)) = inl 6)
  /\ snd (chain_prepareStateForBuilding (at_slot 5) 5) <> None
  /\ snd (chain_prepareStateForBuilding (at_slot 5) 7) <> None.
Proof.
  assert (H5 : chain_GetSlot (at_slot 5) = inl 5) by reflexivity.
  assert (U5 : is_uint64 5) by (unfold is_uint64, uint64_modulus; lia).
  assert (U6 : is_uint64 6) by (unfold is_uint64, uint64_modulus; lia).
  assert (U7 : is_uint64 7) by (unfold is_uint64, uint64_modulus; lia).
  split; [|split].
  - destruct (prepareStateForBuilding_spec chain_state chain_GetSlot
                chain_ProcessSlot (at_slot 5) 6 5 H5 U6 U5)
      as (Hiff & Hok & _).
    assert (He : snd (chain_prepareStateForBuilding (at_slot 5) 6) = None)
      by (apply Hiff; repeat split; reflexivity).
    split; [exact He | exact (proj2 (Hok He))].
  - destruct (prepareStateForBuilding_spec chain_state chain_GetSlot
                chain_ProcessSlot (at_slot 5) 5 5 H5 U5 U5)
      as (_ & _ & _ & _ & Hpast).
    apply Hpast; [lia|]. unfold MaxUint64, uint64_modulus. lia.
  - destruct (prepareStateForBuilding_spec chain_state chain_GetSlot
                chain_ProcessSlot (at_slot 5) 7 5 H5 U7 U5)
      as (_ & _ & _ & Hahead & _).
    apply Hahead. lia.
Defined.

(** A requested slot in the past wraps to a large difference: it is refused
    by the second case of the switch, as too far ahead; the third case is
    reached for the state's own slot only. *)
Example prepareStateForBuilding_past_slot :
  snd (chain_prepareStateForBuilding (at_slot 5) 3)
  = Some (Newf "requested slot is too far ahead, requested: %d, state: %d" [3; 5])
  /\ snd (chain_prepareStateForBuilding (at_slot 5) 5)
     = Some (Newf "requested slot is in the past, requested: %d, state: %d" [5; 5]).
Proof. split; reflexivity. Qed.

(** C6 as stated fails when the builder itself fails: it did not return a nil
    envelope without error, yet [RetrievePayload] returns a nil envelope, with
    the builder's error and not [ErrNilPayload]; an envelope that comes with
    an error is dropped as well. *)
Lemma RetrievePayload_passes_builder_error :
  chain_RetrievePayload (None, Some (Foreign "engine timeout")) (at_slot 5) (6, 3%nat)
  = ((None, Some (Foreign "engine timeout")), tt)
  /\ chain_RetrievePayload (Some 42%nat, Some (Foreign "engine timeout"))
       (at_slot 5) (6, 3%nat)
     = ((None, Some (Foreign "engine timeout")), tt)
  /\ Foreign "engine timeout" <> ErrNilPayload.
Proof. repeat split. discriminate. Qed.

(** The amended C6 when the builder holds no envelope. *)
Lemma RetrievePayload_spec_witness :
  fst (chain_RetrievePayload (None, None) (at_slot 5) (6, 3%nat))
  = (None, Some ErrNilPayload).
Proof.
  destruct (RetrievePayload_spec chain_state (Z * nat) nat nat nat nat
              chain_header (fun h => h) fst snd unit
              (fixed_builder (None, None)) (at_slot 5) (6, 3%nat) tt)
    as (_ & Hlookup).
  destruct (Hlookup 11%nat eq_refl) as (Hnil & _).
  apply Hnil. reflexivity.
Defined.

(** The three outcomes of the amended C6 behind a successful header lookup. *)
Example RetrievePayload_outcomes :
  chain_RetrievePayload (None, None) (at_slot 5) (6, 3%nat)
  = ((None, Some ErrNilPayload), tt)
  /\ chain_RetrievePayload (Some 42%nat, None) (at_slot 5) (6, 3%nat)
     = ((Some 42%nat, None), tt)
  /\ chain_RetrievePayload (Some 42%nat, None)
       {| cs_slot := 5; cs_latest_block_hash := None |} (6, 3%nat)
     = ((None, Some (Foreign "no execution payload header")), tt).
Proof. repeat split. Qed.

(** ** The refusals of [prepareStateForBuilding] *)

Section Refusals.

Variable BeaconStateT : Type.
Variable GetSlot : BeaconStateT -> Z + error.
Variable ProcessSlot : BeaconStateT -> BeaconStateT * option error.

(** X16: the slot difference is unsigned, so a requested slot before the
    state's slot wraps to a large difference and is refused as too far
    ahead, like a slot more than one ahead; the refusal as in the past is
    given for the state's own slot only.  (The one slot before the state's
    that is not refused is slot 0 at state slot [2^64 - 1].) *)
Theorem prepareStateForBuilding_refusals
    (st : BeaconStateT) (requestedSlot stateSlot : Z) :
  GetSlot st = inl stateSlot ->
  is_uint64 requestedSlot -> is_uint64 stateSlot ->
  (requestedSlot = stateSlot ->
     prepareStateForBuilding BeaconStateT GetSlot ProcessSlot st requestedSlot
     = (st, Some (Newf
          "requested slot is in the past, requested: %d, state: %d"
          [requestedSlot; stateSlot])))
  /\ (requestedSlot < stateSlot ->
      ~ (requestedSlot = 0 /\ stateSlot = MaxUint64) ->
      prepareStateForBuilding BeaconStateT GetSlot ProcessSlot st requestedSlot
      = (st, Some (Newf
           "requested slot is too far ahead, requested: %d, state: %d"
           [requestedSlot; stateSlot])))
  /\ (requestedSlot - stateSlot > 1 ->
      prepareStateForBuilding BeaconStateT GetSlot ProcessSlot st requestedSlot
      = (st, Some (Newf
           "requested slot is too far ahead, requested: %d, state: %d"
           [requestedSlot; stateSlot]))).
Proof.
  intros Hs Hr Hst. unfold prepareStateForBuilding. rewrite Hs.
  unfold is_uint64, MaxUint64, uint64_modulus in *.
  assert (Hmod : forall d, - 2 ^ 64 < d < 0 ->
                   (d mod 2 ^ 64) = d + 2 ^ 64).
  { intros d Hd. replace d with ((d + 2 ^ 64) + (-1) * 2 ^ 64) at 1 by ring.
    rewrite Z.mod_add by lia. apply Z.mod_small. lia. }
  unfold sub64, uint64_modulus. repeat split.
  - intros ->. now rewrite Z.sub_diag.
  - intros Hlt Hw. rewrite Hmod by lia.
    destruct (Z.eqb_spec (requestedSlot - stateSlot + 2 ^ 64) 1) as [E|_];
      [lia|].
    destruct (Z.gtb_spec (requestedSlot - stateSlot + 2 ^ 64) 1) as [_|E];
      [reflexivity | lia].
  - intros Hgt. rewrite Z.mod_small by lia.
    destruct (Z.eqb_spec (requestedSlot - stateSlot) 1) as [E|_]; [lia|].
    destruct (Z.gtb_spec (requestedSlot - stateSlot) 1) as [_|E];
      [reflexivity | lia].
Qed.

End Refusals.

(** X16 at state slot 5: slot 3 is refused as too far ahead. *)
Lemma prepareStateForBuilding_refusals_witness :
  chain_prepareStateForBuilding (at_slot 5) 3
  = (at_slot 5,
     Some (Newf "requested slot is too far ahead, requested: %d, state: %d"
             [3; 5])).
Proof.
  refine (proj1 (proj2 (prepareStateForBuilding_refusals
                          chain_state chain_GetSlot chain_ProcessSlot
                          (at_slot 5) 3 5 eq_refl _ _)) _ _);
    unfold is_uint64, MaxUint64, uint64_modulus; lia.
Defined.

(** ** The empty block and its graffiti *)

(** graffitiSize is a constant for size of Graffiti. *)
Definition graffitiSize : nat := 32.

(** Go's built-in [copy(dst, src)]: it overwrites the first
    [min (len dst) (len src)] elements of [dst]. *)
Definition copy (dst src : bytes) : bytes :=
  firstn (List.length dst) src ++ skipn (List.length src) dst.

Definition stringToByteArray32 (str : string) : bytes :=
  let ret := repeat Byte.x00 32 in
  (* Convert the string to a byte slice. *)
  let byteSlice := list_byte_of_string str in
  (* If the byte slice is longer than 32 bytes, truncate it. *)
  let byteSlice :=
    if (graffitiSize <? List.length byteSlice)%nat
    then firstn graffitiSize byteSlice
    else byteSlice in
  (* Copy the bytes to the fixed-size array. *)
  copy ret byteSlice.

(** The remainder of two [uint64]: dividing by zero panics. *)
Definition rem64 (a b : Z) : Outcome Z :=
  if b =? 0 then Panicked else Returned (a mod b).

(** An error of [GetEmptyBeaconBlock]: one made by [errors.Newf] around a
    cause (the [%w] verb), or a collaborator's error passed on. *)
Inductive block_error : Type :=
| Wrapf (format : string) (cause : error)
| Passed (err : error).

Section EmptyBlock.

Variables BeaconStateT BeaconBlock Root PubKey : Type.
Variable GetBlockRootAtIndex : BeaconStateT -> Z -> Root + error.
Variable ValidatorIndexByPubkey : BeaconStateT -> PubKey -> Z + error.
Variable signer_PublicKey : PubKey.
Variable SlotsPerHistoricalRoot : Z.
Variable ActiveForkVersionForSlot : Z -> Z.
(** [types.EmptyBeaconBlock(slot, proposerIndex, parentBlockRoot, version)]. *)
Variable EmptyBeaconBlock : Z -> Z -> Root -> Z -> BeaconBlock + error.
(** The graffiti of the block's body. *)
Variable IsGraffitiEmpty : BeaconBlock -> bool.
Variable SetGraffiti : BeaconBlock -> bytes -> BeaconBlock.
(** [config.DefaultConfig().BaseConfig.Moniker]. *)
Variable Moniker : string.

(** GetEmptyBeaconBlock creates a new empty block. *)
Definition GetEmptyBeaconBlock (st : BeaconStateT) (slot : Z)
  : Outcome (BeaconBlock + block_error) :=
  (* Create a new block. *)
  match rem64 slot SlotsPerHistoricalRoot with
  | Panicked => Panicked
  | Returned i =>
      match GetBlockRootAtIndex st i with
      | inr err =>
          Returned (inr (Wrapf "failed to get block root at index: %w" err))
      | inl parentBlockRoot =>
          (* Get the proposer index for the slot. *)
          match ValidatorIndexByPubkey st signer_PublicKey with
          | inr err =>
              Returned (inr (Wrapf "failed to get validator by pubkey: %w" err))
          | inl proposerIndex =>
              (* Create a new empty block from the current state. *)
              match EmptyBeaconBlock slot proposerIndex parentBlockRoot
                      (ActiveForkVersionForSlot slot) with
              | inr err => Returned (inr (Passed err))
              | inl block =>
                  (* log the warning if graffiti is empty *)
                  if IsGraffitiEmpty block then
                    let monikerInByte := stringToByteArray32 Moniker in
                    Returned (inl (SetGraffiti block monikerInByte))
                  else Returned (inl block)
              end
          end
      end
  end.

(** ** Properties *)

Lemma copy_into_zeros (n : nat) (src : bytes) :
  (List.length src <= n)%nat ->
  copy (repeat Byte.x00 n) src = src ++ repeat Byte.x00 (n - List.length src).
Proof.
  intros H. unfold copy. rewrite repeat_length.
  rewrite firstn_all2 by exact H. f_equal.
  replace n with (List.length src + (n - List.length src))%nat at 1 by lia.
  rewrite repeat_app, skipn_app, repeat_length, Nat.sub_diag.
  rewrite skipn_all2 by (rewrite repeat_length; lia). reflexivity.
Qed.

(** X11: the graffiti made of a string is always 32 bytes: the first 32
    bytes of the string, followed by zero bytes when the string is shorter.
    A string of at most 32 bytes is read back as the first bytes of its
    graffiti; a longer one is cut, so two strings that agree on their first 32
    bytes give the same graffiti. *)
Theorem stringToByteArray32_layout (str : string) :
  let bs := list_byte_of_string str in
  List.length (stringToByteArray32 str) = 32%nat
  /\ stringToByteArray32 str
     = firstn 32 bs ++ repeat Byte.x00 (32 - List.length bs)
  /\ ((List.length bs <= 32)%nat ->
      firstn (List.length bs) (stringToByteArray32 str) = bs)
  /\ (forall str',
        firstn 32 bs = firstn 32 (list_byte_of_string str') ->
        stringToByteArray32 str = stringToByteArray32 str').
Proof.
  intros bs.
  assert (Hlayout : forall s,
            stringToByteArray32 s
            = firstn 32 (list_byte_of_string s)
              ++ repeat Byte.x00 (32 - List.length (list_byte_of_string s))).
  { intros s. unfold stringToByteArray32, graffitiSize.
    destruct (Nat.ltb_spec 32 (List.length (list_byte_of_string s))) as [Hlt|Hle].
    - rewrite copy_into_zeros by (rewrite length_firstn; lia).
      rewrite length_firstn, Nat.min_l by lia.
      replace (32 - List.length (list_byte_of_string s))%nat with 0%nat by lia.
      now rewrite Nat.sub_diag.
    - rewrite copy_into_zeros by exact Hle.
      now rewrite firstn_all2 by exact Hle. }
  split; [|split; [exact (Hlayout str)|split]].
  - rewrite Hlayout. fold bs.
    rewrite length_app, length_firstn, repeat_length. lia.
  - intros Hle. rewrite Hlayout. fold bs.
    rewrite (firstn_all2 (n := 32)) by exact Hle.
    rewrite firstn_app, Nat.sub_diag, firstn_all. cbn. now rewrite app_nil_r.
  - intros str' Heq. rewrite !Hlayout. fold bs. rewrite Heq. f_equal. f_equal.
    assert (Hlen : List.length (firstn 32 bs)
                   = List.length (firstn 32 (list_byte_of_string str')))
      by now rewrite Heq.
    rewrite !length_firstn in Hlen. lia.
Qed.

(** X12: [GetEmptyBeaconBlock] divides by the length of the block-root ring:
    with a length of zero it panics; otherwise it never panics and reads the
    ring at the slot modulo the length, an index below the length.  A block
    is returned only when the root lookup at that index, the validator
    lookup and the construction of the block all succeed; it is the
    constructed block, whose graffiti, when empty, is replaced by the 32
    bytes made of the moniker. *)
Theorem GetEmptyBeaconBlock_result (st : BeaconStateT) (slot : Z) :
  (SlotsPerHistoricalRoot = 0 -> GetEmptyBeaconBlock st slot = Panicked)
  /\ (0 < SlotsPerHistoricalRoot ->
      let i := slot mod SlotsPerHistoricalRoot in
      0 <= i < SlotsPerHistoricalRoot
      /\ returns (GetEmptyBeaconBlock st slot) = true
      /\ (forall err,
            GetBlockRootAtIndex st i = inr err ->
            GetEmptyBeaconBlock st slot
            = Returned (inr (Wrapf "failed to get block root at index: %w" err)))
      /\ (forall block,
            GetEmptyBeaconBlock st slot = Returned (inl block) ->
            exists parentBlockRoot proposerIndex empty,
              GetBlockRootAtIndex st i = inl parentBlockRoot
              /\ ValidatorIndexByPubkey st signer_PublicKey = inl proposerIndex
              /\ EmptyBeaconBlock slot proposerIndex parentBlockRoot
                   (ActiveForkVersionForSlot slot) = inl empty
              /\ block = (if IsGraffitiEmpty empty
                          then SetGraffiti empty (stringToByteArray32 Moniker)
                          else empty)
              /\ List.length (stringToByteArray32 Moniker) = 32%nat)).
Proof.
  unfold GetEmptyBeaconBlock, rem64. split.
  - intros E. rewrite E. reflexivity.
  - intros Hpos. set (i := slot mod SlotsPerHistoricalRoot).
    destruct (Z.eqb_spec SlotsPerHistoricalRoot 0) as [E|_]; [lia|].
    split; [apply Z.mod_pos_bound; lia|].
    split; [|split].
    + destruct (GetBlockRootAtIndex st i); [|reflexivity].
      destruct (ValidatorIndexByPubkey st signer_PublicKey); [|reflexivity].
      destruct (EmptyBeaconBlock _ _ _ _) as [b|]; [|reflexivity].
      now destruct (IsGraffitiEmpty b).
    + intros err ->. reflexivity.
    + intros block.
      destruct (GetBlockRootAtIndex st i) as [root|]; [|discriminate].
      destruct (ValidatorIndexByPubkey st signer_PublicKey) as [idx|];
        [|discriminate].
      destruct (EmptyBeaconBlock _ _ _ _) as [b|] eqn:Eb; [|discriminate].
      intros H. exists root, idx, b.
      repeat split; try exact Eb.
      * destruct (IsGraffitiEmpty b); now injection H as <-.
      * apply (stringToByteArray32_layout Moniker).
Qed.

End EmptyBlock.

(** ** A concrete block builder

    The state is the ring of block roots; a block is its slot, proposer,
    parent root and graffiti. *)

Record plain_block : Type := {
  pb_slot : Z;
  pb_proposer : Z;
  pb_parent : nat;
  pb_graffiti : bytes
}.

Definition ring_root (ring : list nat) (i : Z) : nat + error :=
  match nth_error ring (Z.to_nat i) with
  | Some root => inl root
  | None => inr (Foreign "no block root at index")
  end.

Definition plain_GetEmptyBeaconBlock (ring : list nat) (slot : Z)
  : Outcome (plain_block + block_error) :=
  GetEmptyBeaconBlock (list nat) plain_block nat unit
    ring_root (fun _ _ => inl 3) tt (Z.of_nat (List.length ring)) (fun _ => 4)
    (fun slot proposer parent _ =>
       inl {| pb_slot := slot; pb_proposer := proposer; pb_parent := parent;
              pb_graffiti := repeat Byte.x00 32 |})
    (fun b => forallb (Byte.eqb Byte.x00) (pb_graffiti b))
    (fun b g => {| pb_slot := pb_slot b; pb_proposer := pb_proposer b;
                   pb_parent := pb_parent b; pb_graffiti := g |})
    "node" ring slot.

(** X11 at the moniker "node". *)
Lemma stringToByteArray32_layout_witness :
  firstn 4 (stringToByteArray32 "node") = list_byte_of_string "node"
  /\ List.length (stringToByteArray32 "node") = 32%nat.
Proof.
  destruct (stringToByteArray32_layout "node") as (Hlen & _ & Hback & _).
  split; [|exact Hlen].
  apply Hback. cbn. lia.
Defined.

(** X12 on a ring of three roots: slot 7 reads index 1; an empty ring makes
    the call panic. *)
Lemma GetEmptyBeaconBlock_result_witness :
  returns (plain_GetEmptyBeaconBlock [10; 11; 12]%nat 7) = true
  /\ plain_GetEmptyBeaconBlock [] 7 = Panicked.
Proof.
  split.
  - apply (GetEmptyBeaconBlock_result (list nat) plain_block nat unit
             ring_root (fun _ _ => inl 3) tt 3 (fun _ => 4)
             (fun slot proposer parent _ =>
                inl {| pb_slot := slot; pb_proposer := proposer;
                       pb_parent := parent;
                       pb_graffiti := repeat Byte.x00 32 |})
             (fun b => forallb (Byte.eqb Byte.x00) (pb_graffiti b))
             (fun b g => {| pb_slot := pb_slot b; pb_proposer := pb_proposer b;
                            pb_parent := pb_parent b; pb_graffiti := g |})
             "node" [10; 11; 12]%nat 7).
    lia.
  - apply (GetEmptyBeaconBlock_result (list nat) plain_block nat unit
             ring_root (fun _ _ => inl 3) tt 0 (fun _ => 4)
             (fun slot proposer parent _ =>
                inl {| pb_slot := slot; pb_proposer := proposer;
                       pb_parent := parent;
                       pb_graffiti := repeat Byte.x00 32 |})
             (fun b => forallb (Byte.eqb Byte.x00) (pb_graffiti b))
             (fun b g => {| pb_slot := pb_slot b; pb_proposer := pb_proposer b;
                            pb_parent := pb_parent b; pb_graffiti := g |})
             "node" [] 7).
    reflexivity.
Defined.

(** The block built on that ring at slot 7. *)
Example GetEmptyBeaconBlock_on_ring :
  plain_GetEmptyBeaconBlock [10; 11; 12]%nat 7
  = Returned (inl {| pb_slot := 7; pb_proposer := 3; pb_parent := 11%nat;
                     pb_graffiti := stringToByteArray32 "node" |}).
Proof. reflexivity. Qed.


End Validator.

(* ------------------------------------------------------------------------- *)
(** * Package blockchain: forkchoice updates after a block                    *)
(* ------------------------------------------------------------------------- *)

Module Blockchain.

Local Open Scope Z_scope.

Section Service.

Variables ConsensusBlockT BeaconBlockT BeaconStateT ExecutionPayloadHeaderT
          PayloadAttributesT ExecutionHash Root PayloadID : Type.

(** [engineprimitives.ForkchoiceStateV1]. *)
Record ForkchoiceStateV1 : Type := {
  HeadBlockHash : ExecutionHash;
  SafeBlockHash : ExecutionHash;
  FinalizedBlockHash : ExecutionHash
}.

(** [engineprimitives.ForkchoiceUpdateRequest]. *)
Record ForkchoiceUpdateRequest : Type := {
  State : ForkchoiceStateV1;
  PayloadAttributes : option PayloadAttributesT;
  ForkVersion : Z
}.

(** Modelled from the spec: the constructor is outside the embedded files.
    It builds the request of a forkchoice update without attributes: the
    given forkchoice state and fork version, and no payload attributes. *)
Definition BuildForkchoiceUpdateRequestNoAttrs
    (state : ForkchoiceStateV1) (forkVersion : Z) : ForkchoiceUpdateRequest :=
  {| State := state; PayloadAttributes := None; ForkVersion := forkVersion |}.

(** Accessors of the blocks, the state and the payload header. *)
Variable GetBeaconBlock : ConsensusBlockT -> BeaconBlockT.
Variable GetConsensusBlockTime : ConsensusBlockT -> Z.
Variable GetSlot : BeaconBlockT -> Z.
Variable HashTreeRoot : BeaconBlockT -> Root.
Variable GetTimestamp : BeaconBlockT -> Z.   (* of the body's execution payload *)
Variable GetBlockHash : ExecutionPayloadHeaderT -> ExecutionHash.
Variable GetParentHash : ExecutionPayloadHeaderT -> ExecutionHash.
Variable GetLatestExecutionPayloadHeader :
  BeaconStateT -> ExecutionPayloadHeaderT + error.
Variable Copy : BeaconStateT -> BeaconStateT.
Variable ActiveForkVersionForSlot : Z -> Z.
Variable payloadtime_Next : Z -> Z -> Z.

(** The service's settings. *)
Variable shouldBuildOptimisticPayloads : bool.
Variable localBuilder_Enabled : bool.

(** A payload request handed to the local builder. *)
Record PayloadRequest : Type := {
  pr_state : BeaconStateT;
  pr_slot : Z;
  pr_timestamp : Z;
  pr_parentBlockRoot : Root;
  pr_headEth1BlockHash : ExecutionHash;
  pr_finalEth1BlockHash : ExecutionHash
}.

(** Collaborators, transitions on their joint state [C]. *)
Variable C : Type.
Variable NotifyForkchoiceUpdate :
  ForkchoiceUpdateRequest -> C ->
  (option PayloadID * option ExecutionHash * option error) * C.
Variable ProcessSlots : BeaconStateT -> Z -> C -> (BeaconStateT * option error) * C.
Variable RequestPayloadAsync :
  PayloadRequest -> C -> (option PayloadID * option error) * C.

(** What the service did, in order: the forkchoice updates it sent to the
    execution engine, the payloads it requested from the local builder, and
    the errors it logged. *)
Inductive Action : Type :=
| SentForkchoiceUpdate (fcu : ForkchoiceUpdateRequest)
| RequestedPayload (pr : PayloadRequest)
| LoggedError (msg : string) (err : error).

Record World : Type := {
  collaborators : C;
  actions : list Action
}.

Definition record (a : Action) (w : World) : World :=
  {| collaborators := collaborators w; actions := actions w ++ [a] |}.

Definition log_error (msg : string) (err : option error) (w : World) : World :=
  match err with
  | Some e => record (LoggedError msg e) w
  | None => w
  end.

(** sendNextFCUWithoutAttributes sends a forkchoice update to the execution
    client without attributes. *)
Definition sendNextFCUWithoutAttributes
    (consensusBlk : ConsensusBlockT) (lph : ExecutionPayloadHeaderT)
    (w : World) : World :=
  let blk := GetBeaconBlock consensusBlk in
  let fcu :=
    BuildForkchoiceUpdateRequestNoAttrs
      {| HeadBlockHash := GetBlockHash lph;
         SafeBlockHash := GetParentHash lph;
         FinalizedBlockHash := GetParentHash lph |}
      (ActiveForkVersionForSlot (GetSlot blk)) in
  let '((_, _, err), c) := NotifyForkchoiceUpdate fcu (collaborators w) in
  log_error "failed to send forkchoice update without attributes" err
    (record (SentForkchoiceUpdate fcu)
       {| collaborators := c; actions := actions w |}).

(** sendNextFCUWithAttributes sends a forkchoice update to the execution
    client with attributes: the update itself is sent by the local builder. *)
Definition sendNextFCUWithAttributes
    (st : BeaconStateT) (consensusBlk : ConsensusBlockT)
    (lph : ExecutionPayloadHeaderT) (w : World) : World :=
  let blk := GetBeaconBlock consensusBlk in
  let stCopy := Copy st in
  let next := (GetSlot blk + 1) mod 2 ^ 64 in
  let '((stCopy, err), c) := ProcessSlots stCopy next (collaborators w) in
  let w := {| collaborators := c; actions := actions w |} in
  match err with
  | Some e =>
      record (LoggedError "failed to process slots in non-optimistic payload" e) w
  | None =>
      let prevBlockRoot := HashTreeRoot blk in
      let payloadTime := GetTimestamp blk in
      let pr :=
        {| pr_state := stCopy;
           pr_slot := next;
           pr_timestamp :=
             payloadtime_Next payloadTime (GetConsensusBlockTime consensusBlk);
           pr_parentBlockRoot := prevBlockRoot;
           pr_headEth1BlockHash := GetBlockHash lph;
           pr_finalEth1BlockHash := GetParentHash lph |} in
      let '((_, err), c) := RequestPayloadAsync pr (collaborators w) in
      log_error
        "failed to send forkchoice update with attributes in non-optimistic payload"
        err
        (record (RequestedPayload pr)
           {| collaborators := c; actions := actions w |})
  end.

(** sendPostBlockFCU sends a forkchoice update to the execution client. *)
Definition sendPostBlockFCU
    (st : BeaconStateT) (consensusBlk : ConsensusBlockT) (w : World) : World :=
  match GetLatestExecutionPayloadHeader st with
  | inr err =>
      record
        (LoggedError "failed to get latest execution payload in postBlockProcess"
           err) w
  | inl lph =>
      if negb shouldBuildOptimisticPayloads && localBuilder_Enabled
      then sendNextFCUWithAttributes st consensusBlk lph w
      else sendNextFCUWithoutAttributes consensusBlk lph w
  end.

(** ** Properties *)

(** The forkchoice updates among a list of actions. *)
Definition sent_updates (acts : list Action) : list ForkchoiceUpdateRequest :=
  flat_map (fun a => match a with
                     | SentForkchoiceUpdate fcu => [fcu]
                     | _ => []
                     end) acts.

(** The forkchoice state that follows the payload header [lph]. *)
Definition finalized_mode (lph : ExecutionPayloadHeaderT) : ForkchoiceStateV1 :=
  {| HeadBlockHash := GetBlockHash lph;
     SafeBlockHash := GetParentHash lph;
     FinalizedBlockHash := GetParentHash lph |}.

Lemma sent_updates_app (xs ys : list Action) :
  sent_updates (xs ++ ys) = sent_updates xs ++ sent_updates ys.
Proof. unfold sent_updates. now rewrite flat_map_app. Qed.

Lemma sent_updates_log_error (msg : string) (err : option error) (w : World) :
  sent_updates (actions (log_error msg err w)) = sent_updates (actions w).
Proof.
  destruct err as [e|]; [|reflexivity].
  cbn. rewrite sent_updates_app. cbn. now rewrite app_nil_r.
Qed.

Lemma sendNextFCUWithoutAttributes_sends
    (consensusBlk : ConsensusBlockT) (lph : ExecutionPayloadHeaderT) (w : World) :
  sent_updates (actions (sendNextFCUWithoutAttributes consensusBlk lph w))
  = sent_updates (actions w)
    ++ [{| State := finalized_mode lph;
           PayloadAttributes := None;
           ForkVersion :=
             ActiveForkVersionForSlot (GetSlot (GetBeaconBlock consensusBlk)) |}].
Proof.
  unfold sendNextFCUWithoutAttributes.
  destruct (NotifyForkchoiceUpdate _ _) as [[[pid hash] err] c].
  rewrite sent_updates_log_error. cbn. now rewrite sent_updates_app.
Qed.

Lemma sendNextFCUWithAttributes_sends_nothing
    (st : BeaconStateT) (consensusBlk : ConsensusBlockT)
    (lph : ExecutionPayloadHeaderT) (w : World) :
  sent_updates (actions (sendNextFCUWithAttributes st consensusBlk lph w))
  = sent_updates (actions w).
Proof.
  unfold sendNextFCUWithAttributes.
  destruct (ProcessSlots _ _ _) as [[stCopy [e|]] c]; cbn.
  - rewrite sent_updates_app. cbn. now rewrite app_nil_r.
  - destruct (RequestPayloadAsync _ _) as [[pid err] c'].
    rewrite sent_updates_log_error. cbn.
    rewrite sent_updates_app. cbn. now rewrite app_nil_r.
Qed.

(** C8: every forkchoice update the service sends without payload attributes
    carries as head the block hash of the latest execution payload header, and
    as safe and as finalized block that header's parent hash.
    [sendNextFCUWithoutAttributes] sends exactly one update, of that form;
    through [sendPostBlockFCU] every update that is sent has that form, for
    the header stored in the state. *)
Theorem forkchoice_update_without_attributes :
  (forall consensusBlk lph w,
      exists fcu,
        sent_updates (actions (sendNextFCUWithoutAttributes consensusBlk lph w))
        = sent_updates (actions w) ++ [fcu]
        /\ PayloadAttributes fcu = None
        /\ HeadBlockHash (State fcu) = GetBlockHash lph
        /\ SafeBlockHash (State fcu) = GetParentHash lph
        /\ FinalizedBlockHash (State fcu) = GetParentHash lph)
  /\ (forall st consensusBlk w,
      exists sent,
        sent_updates (actions (sendPostBlockFCU st consensusBlk w))
        = sent_updates (actions w) ++ sent
        /\ forall fcu, In fcu sent ->
             PayloadAttributes fcu = None
             /\ exists lph,
                  GetLatestExecutionPayloadHeader st = inl lph
                  /\ HeadBlockHash (State fcu) = GetBlockHash lph
                  /\ SafeBlockHash (State fcu) = GetParentHash lph
                  /\ FinalizedBlockHash (State fcu) = GetParentHash lph).
Proof.
  split.
  - intros consensusBlk lph w. eexists. split.
    + apply sendNextFCUWithoutAttributes_sends.
    + repeat split.
  - intros st consensusBlk w. unfold sendPostBlockFCU.
    destruct (GetLatestExecutionPayloadHeader st) as [lph|err].
    + destruct (negb shouldBuildOptimisticPayloads && localBuilder_Enabled).
      * exists []. rewrite sendNextFCUWithAttributes_sends_nothing, app_nil_r.
        split; [reflexivity | intros fcu []].
      * eexists. split; [apply sendNextFCUWithoutAttributes_sends|].
        intros fcu [<-|[]]. split; [reflexivity|].
        exists lph. repeat split.
    + exists []. cbn. rewrite sent_updates_app. cbn. rewrite !app_nil_r.
      split; [reflexivity | intros fcu []].
Qed.

(** ** What one call does *)

(** The payload requests among a list of actions. *)
Definition requested_payloads (acts : list Action) : list PayloadRequest :=
  flat_map (fun a => match a with
                     | RequestedPayload pr => [pr]
                     | _ => []
                     end) acts.

(** The actions [sendPostBlockFCU] can add: an error logged alone; or one
    forkchoice update, or one payload request, each possibly followed by the
    logging of its error. *)
Inductive post_block_actions : list Action -> Prop :=
| post_block_logged (msg : string) (err : error) :
    post_block_actions [LoggedError msg err]
| post_block_update (fcu : ForkchoiceUpdateRequest) (tail : list Action) :
    sent_updates tail = [] -> requested_payloads tail = [] ->
    post_block_actions (SentForkchoiceUpdate fcu :: tail)
| post_block_payload (pr : PayloadRequest) (tail : list Action) :
    sent_updates tail = [] -> requested_payloads tail = [] ->
    post_block_actions (RequestedPayload pr :: tail).

(** X13: after a block the service does one thing: it sends one forkchoice
    update without attributes, or asks the local builder for one payload, or
    only logs an error; never both an update and a payload request.  A
    payload is requested exactly when optimistic builds are off, the local
    builder is enabled, the header lookup succeeds and processing the slots
    of the state's copy returns no error; the request is for the processed
    copy and the slot after the block's (a [uint64]), with the block's root
    as parent root, the next payload time, the header's block hash as head
    and its parent hash as final block.  An update is sent exactly when the
    header lookup succeeds outside that mode.  Nothing is sent or requested
    when the header lookup fails. *)
Theorem sendPostBlockFCU_does_one_thing
    (st : BeaconStateT) (consensusBlk : ConsensusBlockT) (w : World) :
  exists acts,
    actions (sendPostBlockFCU st consensusBlk w) = actions w ++ acts
    /\ post_block_actions acts
    /\ (List.length (sent_updates acts) + List.length (requested_payloads acts)
        <= 1)%nat
    /\ (sent_updates acts <> [] ->
        negb shouldBuildOptimisticPayloads && localBuilder_Enabled = false)
    /\ (forall pr, In pr (requested_payloads acts) ->
        negb shouldBuildOptimisticPayloads && localBuilder_Enabled = true
        /\ pr_slot pr = (GetSlot (GetBeaconBlock consensusBlk) + 1) mod 2 ^ 64
        /\ pr_parentBlockRoot pr = HashTreeRoot (GetBeaconBlock consensusBlk)
        /\ exists lph,
             GetLatestExecutionPayloadHeader st = inl lph
             /\ pr_headEth1BlockHash pr = GetBlockHash lph
             /\ pr_finalEth1BlockHash pr = GetParentHash lph)
    /\ (forall err, GetLatestExecutionPayloadHeader st = inr err ->
        sent_updates acts = [] /\ requested_payloads acts = [])
    /\ (requested_payloads acts <> [] <->
        negb shouldBuildOptimisticPayloads && localBuilder_Enabled = true
        /\ (exists lph, GetLatestExecutionPayloadHeader st = inl lph)
        /\ snd (fst (ProcessSlots (Copy st)
                       ((GetSlot (GetBeaconBlock consensusBlk) + 1) mod 2 ^ 64)
                       (collaborators w))) = None)
    /\ (sent_updates acts <> [] <->
        negb shouldBuildOptimisticPayloads && localBuilder_Enabled = false
        /\ exists lph, GetLatestExecutionPayloadHeader st = inl lph)
    /\ (forall pr, In pr (requested_payloads acts) ->
        pr_state pr
        = fst (fst (ProcessSlots (Copy st)
                      ((GetSlot (GetBeaconBlock consensusBlk) + 1) mod 2 ^ 64)
                      (collaborators w)))
        /\ pr_timestamp pr
           = payloadtime_Next (GetTimestamp (GetBeaconBlock consensusBlk))
               (GetConsensusBlockTime consensusBlk)).
Proof.
  unfold sendPostBlockFCU.
  destruct (GetLatestExecutionPayloadHeader st) as [lph|err].
  - destruct (negb shouldBuildOptimisticPayloads && localBuilder_Enabled).
    + unfold sendNextFCUWithAttributes.
      destruct (ProcessSlots _ _ _) as [[stCopy [e|]] c]; cbn -[Z.pow Z.modulo].
      * eexists. split; [reflexivity|].
        split; [constructor|]. cbn.
        split; [lia|]. split; [easy|]. split; [easy|]. split; [easy|].
        split; [|split; [|easy]].
        -- split; [easy|]. intros (_ & _ & H). discriminate.
        -- split; [easy|]. intros (H & _). discriminate.
      * destruct (RequestPayloadAsync _ _) as [[pid [e|]] c'];
          cbn -[Z.pow Z.modulo].
        -- eexists. split; [now rewrite <- app_assoc|].
           split; [now constructor|]. cbn -[Z.pow Z.modulo].
           split; [lia|]. split; [easy|].
           split; [|split; [easy|split; [|split]]].
           ++ intros pr [<-|[]]. cbn -[Z.pow Z.modulo].
              split; [reflexivity|]. split; [reflexivity|].
              split; [reflexivity|].
              exists lph. now repeat split.
           ++ split; [intros _|discriminate].
              split; [reflexivity|]. split; [now exists lph | reflexivity].
           ++ split; [easy|]. intros (H & _). discriminate.
           ++ intros pr [<-|[]]. split; reflexivity.
        -- eexists. split; [reflexivity|].
           split; [now constructor|]. cbn -[Z.pow Z.modulo].
           split; [lia|]. split; [easy|].
           split; [|split; [easy|split; [|split]]].
           ++ intros pr [<-|[]]. cbn -[Z.pow Z.modulo].
              split; [reflexivity|]. split; [reflexivity|].
              split; [reflexivity|].
              exists lph. now repeat split.
           ++ split; [intros _|discriminate].
              split; [reflexivity|]. split; [now exists lph | reflexivity].
           ++ split; [easy|]. intros (H & _). discriminate.
           ++ intros pr [<-|[]]. split; reflexivity.
    + unfold sendNextFCUWithoutAttributes.
      destruct (NotifyForkchoiceUpdate _ _) as [[[pid hash] [e|]] c]; cbn.
      * eexists. split; [now rewrite <- app_assoc|].
        split; [now constructor|]. cbn.
        split; [lia|]. split; [easy|]. split; [easy|]. split; [easy|].
        split; [|split; [|easy]].
        -- split; [easy|]. intros (H & _). discriminate.
        -- split; [intros _|discriminate]. split; [reflexivity|now exists lph].
      * eexists. split; [reflexivity|].
        split; [now constructor|]. cbn.
        split; [lia|]. split; [easy|]. split; [easy|]. split; [easy|].
        split; [|split; [|easy]].
        -- split; [easy|]. intros (H & _). discriminate.
        -- split; [intros _|discriminate]. split; [reflexivity|now exists lph].
  - eexists. split; [reflexivity|].
    split; [constructor|]. cbn.
    split; [lia|]. split; [easy|]. split; [easy|]. split; [easy|].
    split; [|split; [|easy]].
    + split; [easy|]. intros (_ & (lph & H) & _). discriminate.
    + split; [easy|]. intros (_ & (lph & H)). discriminate.
Qed.

End Service.

(** ** A concrete service

    Hashes and roots are numbers, a block is its slot, the state holds the
    latest payload header as the pair (block hash, parent hash), and the
    execution engine accepts every update. *)

Definition demo_sendPostBlockFCU (optimistic enabled : bool)
    (st : option (nat * nat)) (consensusBlk : Z)
  : World (option (nat * nat)) unit nat nat unit ->
    World (option (nat * nat)) unit nat nat unit :=
  sendPostBlockFCU Z Z (option (nat * nat)) (nat * nat) unit nat nat nat
    (fun b => b) (fun _ => 0) (fun b => b) (fun _ => 0%nat) (fun _ => 0)
    fst snd
    (fun st => match st with
               | Some h => inl h
               | None => inr (Foreign "no execution payload header")
               end)
    (fun st => st) (fun _ => 4) (fun t _ => t + 1)
    optimistic enabled unit
    (fun _ c => ((None, None, None), c))
    (fun st _ c => ((st, None), c))
    (fun _ c => ((None, None), c))
    st consensusBlk.

(** C8 on the concrete service: with the local builder disabled, the update
    sent after a block has head 21 (the header's block hash) and safe and
    finalized 20 (its parent hash), and no attributes. *)
Example forkchoice_update_after_block :
  actions _ _ _ _ _
    (demo_sendPostBlockFCU false false (Some (21%nat, 20%nat)) 9
       {| collaborators := tt; actions := [] |})
  = [SentForkchoiceUpdate _ _ _ _
       {| State := {| HeadBlockHash := 21%nat;
                      SafeBlockHash := 20%nat;
                      FinalizedBlockHash := 20%nat |};
          PayloadAttributes := None;
          ForkVersion := 4 |}].
Proof. reflexivity. Qed.

(** X13 on the concrete service with the local builder enabled: exactly one
    payload is requested, for slot 10 on top of the header (21, 20), and no
    forkchoice update is sent. *)
Lemma sendPostBlockFCU_does_one_thing_witness :
  exists acts pr,
    actions _ _ _ _ _
      (demo_sendPostBlockFCU false true (Some (21%nat, 20%nat)) 9
         {| collaborators := tt; actions := [] |}) = acts
    /\ sent_updates _ _ _ _ acts = []
    /\ requested_payloads _ _ _ _ acts = [pr]
    /\ pr_state _ _ _ pr = Some (21%nat, 20%nat)
    /\ pr_slot _ _ _ pr = 10
    /\ pr_timestamp _ _ _ pr = 1
    /\ pr_headEth1BlockHash _ _ _ pr = 21%nat
    /\ pr_finalEth1BlockHash _ _ _ pr = 20%nat.
Proof.
  destruct (sendPostBlockFCU_does_one_thing
              Z Z (option (nat * nat)) (nat * nat) unit nat nat nat
              (fun b => b) (fun _ => 0) (fun b => b) (fun _ => 0%nat) (fun _ => 0)
              fst snd
              (fun st => match st with
                         | Some h => inl h
                         | None => inr (Foreign "no execution payload header")
                         end)
              (fun st => st) (fun _ => 4) (fun t _ => t + 1)
              false true unit
              (fun _ c => ((None, None, None), c))
              (fun st _ c => ((st, None), c))
              (fun _ c => ((None, None), c))
              (Some (21%nat, 20%nat)) 9 {| collaborators := tt; actions := [] |})
    as (acts & Hacts & _ & Hone & Hsent & Hreq & _ & Hiff & _ & Hpin).
  cbn [actions app] in Hacts.
  destruct (requested_payloads _ _ _ _ acts) as [|pr l] eqn:E.
  - exfalso. apply (proj2 Hiff); [|reflexivity].
    split; [reflexivity|]. split; [now eexists | reflexivity].
  - exists acts, pr.
    split; [exact Hacts|].
    destruct (sent_updates _ _ _ _ acts) as [|fcu l'] eqn:E'.
    2:{ exfalso. assert (H : fcu :: l' <> []) by discriminate.
        specialize (Hsent H). discriminate. }
    split; [reflexivity|].
    destruct l as [|pr' l]; [|cbn in Hone; lia].
    split; [exact E|].
    destruct (Hreq pr (or_introl eq_refl))
      as (_ & Hslot & _ & lph & Hlph & Hhead & Hfinal).
    destruct (Hpin pr (or_introl eq_refl)) as (Hst & Htime).
    injection Hlph as <-.
    split; [exact Hst|]. split; [exact Hslot|]. split; [exact Htime|].
    split; [exact Hhead | exact Hfinal].
Defined.


End Blockchain.
